(** * The schema validator of the myconfig language server

    A shallow embedding of [server/src/validator.ts] (the validation core
    behind the language server) and the properties its specification
    states about it.

    - JavaScript strings are sequences of UTF-16 code units ([jsstring]).
    - JavaScript values are the values the YAML parser can hand back
      ([JsValue]); numbers are IEEE 754 binary64 ([float]).
    - Arrays of diagnostics live in a store ([Store]); [validateConfig]
      and [validateText] allocate an array, push to it and return the
      reference, as the source does.
    - Exceptions are explicit ([outcome]).
    - The two engines the validator calls but does not define, the YAML
      parser and the part of the regular expression engine beyond the
      patterns modelled here, are parameters ([parseYaml], [hostRegExp]). *)

From Stdlib Require Import ZArith NArith String Ascii Floats.
From stdpp Require Import gmap list.

Set Warnings "-register-all".
Open Scope Z_scope.

(* ================================================================== *)
(** ** Strings *)

(** A JavaScript string: a sequence of 16-bit code units. *)
Abbreviation codeunit := N.
Abbreviation jsstring := (list N).

(** The code points of a UTF-8 byte sequence without its leading byte:
    [acc] holds the bits read so far, [n] continuation bytes follow. *)
Fixpoint utf8_continue (n : nat) (acc : N) (s : string) : N * string :=
  match n, s with
  | S n', String b s' => utf8_continue n' (acc * 64 + N_of_ascii b mod 64)%N s'
  | _, _ => (acc, s)
  end.

(** One code point as code units: itself below U+10000, a surrogate pair
    above. *)
Definition code_units (cp : N) : jsstring :=
  if (cp <? 65536)%N then [cp]
  else [(55296 + (cp - 65536) / 1024)%N; (56320 + (cp - 65536) mod 1024)%N].

(** [js s] is the JavaScript string that the literal [s], written in this
    file in UTF-8, denotes.  The recursion is on a bound on the number of
    bytes left. *)
Fixpoint js_bytes (fuel : nat) (s : string) : jsstring :=
  match fuel, s with
  | S fuel', String b s' =>
      let b := N_of_ascii b in
      let '(cp, rest) :=
        if (b <? 128)%N then (b, s')
        else if (b <? 224)%N then utf8_continue 1 (b mod 32)%N s'
        else if (b <? 240)%N then utf8_continue 2 (b mod 16)%N s'
        else utf8_continue 3 (b mod 8)%N s' in
      code_units cp ++ js_bytes fuel' rest
  | _, _ => []
  end.

Definition js (s : string) : jsstring := js_bytes (String.length s) s.

Definition newline : codeunit := 10%N.
Definition dquote : codeunit := 34%N.
Definition colon : codeunit := 58%N.

(** [s] between double quotes. *)
Definition quoted (s : jsstring) : jsstring := dquote :: s ++ [dquote].

(** ECMAScript's WhiteSpace and LineTerminator code points: what [\s]
    matches and what [String.prototype.trim] strips. *)
Definition isWhiteSpace (c : codeunit) : bool :=
  ((9 <=? c) && (c <=? 13) || (c =? 32) || (c =? 160) || (c =? 5760)
   || (8192 <=? c) && (c <=? 8202) || (c =? 8232) || (c =? 8233)
   || (c =? 8239) || (c =? 8287) || (c =? 12288) || (c =? 65279))%N.

(** ECMAScript's LineTerminator code points: what [.] does not match. *)
Definition isLineTerminator (c : codeunit) : bool :=
  ((c =? 10) || (c =? 13) || (c =? 8232) || (c =? 8233))%N.

Fixpoint trimStart (s : jsstring) : jsstring :=
  match s with
  | c :: s' => if isWhiteSpace c then trimStart s' else s
  | [] => []
  end.

Definition trimEnd (s : jsstring) : jsstring :=
  reverse (trimStart (reverse s)).

(** [String.prototype.trim]. *)
Definition trim (s : jsstring) : jsstring := trimEnd (trimStart s).

(** [s.split(sep)] for a separator of one code unit: the pieces between
    the separators, one piece (the empty one) for the empty string. *)
Fixpoint split (sep : codeunit) (s : jsstring) : list jsstring :=
  match s with
  | [] => [[]]
  | c :: s' =>
      if (c =? sep)%N then [] :: split sep s'
      else match split sep s' with
           | piece :: pieces => (c :: piece) :: pieces
           | [] => [[c]]
           end
  end.

Fixpoint startsWith (s prefix : jsstring) : bool :=
  match prefix, s with
  | [], _ => true
  | p :: prefix', c :: s' => (c =? p)%N && startsWith s' prefix'
  | _ :: _, [] => false
  end.

(** [String.prototype.includes]. *)
Fixpoint includes (s sub : jsstring) : bool :=
  startsWith s sub
  || match s with
     | _ :: s' => includes s' sub
     | [] => false
     end.

(* ================================================================== *)
(** ** Values *)

(** A JavaScript number is an IEEE 754 binary64 value. *)
Definition number := float.

(** The classes of the objects that are neither arrays nor plain
    objects and that [parse] of the [yaml] package returns under its
    default options: a [Uint8Array] (a [Buffer] under Node) for a scalar
    tagged [!!binary], a [Date] for a scalar tagged [!!timestamp], a
    [Map] for a sequence tagged [!!omap] and a [Set] for a mapping tagged
    [!!set]. *)
Inductive Class := ClassUint8Array | ClassDate | ClassMap | ClassSet.

(** The values [parse] of the [yaml] package returns under its default
    options: null, booleans, numbers, strings, arrays, plain objects
    (the mappings) and, for tagged nodes, objects of the classes above;
    and [undefined].  An object comes with its own properties: for a
    [Uint8Array] these are its indices; a [Date], a [Map] and a [Set]
    have none, what they hold is not kept in properties. *)
Inductive JsValue :=
| JsUndefined
| JsNull
| JsBoolean (b : bool)
| JsNumber (x : number)
| JsString (s : jsstring)
| JsArray (elems : list JsValue)
| JsObject (props : gmap jsstring JsValue)
| JsExotic (class : Class) (props : gmap jsstring JsValue).

(** The [typeof] operator. *)
Definition typeof (v : JsValue) : jsstring :=
  match v with
  | JsUndefined => js "undefined"
  | JsNull => js "object"
  | JsBoolean _ => js "boolean"
  | JsNumber _ => js "number"
  | JsString _ => js "string"
  | JsArray _ => js "object"
  | JsObject _ => js "object"
  | JsExotic _ _ => js "object"
  end.

(** [Array.isArray]. *)
Definition isArray (v : JsValue) : bool :=
  match v with
  | JsArray _ => true
  | _ => false
  end.

(** [v === null]. *)
Definition is_null (v : JsValue) : bool :=
  match v with
  | JsNull => true
  | _ => false
  end.

(** [a === b] on strings. *)
Definition str_eq (a b : jsstring) : bool := bool_decide (a = b).

(** A [Record<string, unknown>]: the own properties of an object. *)
Abbreviation Record_ := (gmap jsstring JsValue).

(** [value as Record<string, unknown>], for a [value] whose [typeof] is
    ["object"] and that is not [null]: an object, plain or not, or an
    array.  The cast does nothing at run time: the record is the object
    itself, seen through its properties.  The validator asks an array
    for [timeout] and [retries] only; an array's own properties are its
    indices and [length], so it has neither. *)
Definition as_Record (v : JsValue) : Record_ :=
  match v with
  | JsObject props => props
  | JsExotic _ props => props
  | _ => ∅
  end.

(** [key in o].  The keys the validator asks for ([name], [version],
    [enabled], [settings], [timeout], [retries]) are not properties of
    [Object.prototype], nor of the prototypes of arrays and of the
    classes of [Class], so [in] on them is own-property membership. *)
Definition has (key : jsstring) (o : Record_) : bool :=
  bool_decide (is_Some (o !! key)).

(** [o.key] (or [o[key]]): [undefined] when there is no such property. *)
Definition get (key : jsstring) (o : Record_) : JsValue :=
  default JsUndefined (o !! key).

(** [x < 0] for a value [x] whose [typeof] is ["number"]. *)
Definition is_negative (v : JsValue) : bool :=
  match v with
  | JsNumber x => PrimFloat.ltb x 0%float
  | _ => false
  end.

(* ================================================================== *)
(** ** The types of the two libraries *)

(** [vscode-languageserver]: diagnostics. *)
Module DiagnosticSeverity.
Inductive t := Error | Warning | Information | Hint.
End DiagnosticSeverity.

Module LSP.
Record Position := { line : Z; character : Z }.
Record Range := { start : Position; end_ : Position }.
Record Diagnostic := {
  severity : DiagnosticSeverity.t;
  range : Range;
  message : jsstring;
  source : jsstring
}.
End LSP.
Abbreviation Diagnostic := LSP.Diagnostic.

(** [yaml]: the error [parse] throws on a syntax error.  [linePos] is
    optional and holds one or two positions; lines count from 1. *)
Module YAML.
Record LinePos := { line : Z; col : Z }.
Record YAMLParseError := {
  message : jsstring;
  linePos : option (LinePos * option LinePos)
}.
End YAML.
Abbreviation YAMLParseError := YAML.YAMLParseError.

(* ================================================================== *)
(** ** Exceptions and the store *)

(** What can be thrown: a [YAMLParseError], the [SyntaxError] of a
    malformed regular expression, or anything else. *)
Inductive exn :=
| ExnYAMLParseError (e : YAMLParseError)
| ExnSyntaxError (msg : jsstring)
| ExnOther (msg : jsstring).

(** The outcome of a computation that has no effect on the store. *)
Inductive outcome (A : Type) :=
| Return (a : A)
| Throw (e : exn).
Arguments Return {A} a.
Arguments Throw {A} e.

#[global] Instance outcome_ret : MRet outcome := @Return.
#[global] Instance outcome_bind : MBind outcome := fun A B f m =>
  match m with
  | Return a => f a
  | Throw e => Throw e
  end.

(** The store: the arrays of diagnostics allocated so far, each at the
    index it was allocated at.  A reference to an array is its index. *)
Abbreviation ref := nat.
Abbreviation Store := (list (list Diagnostic)).

(** A computation that may allocate and update arrays, and may throw. *)
Definition M (A : Type) : Type := Store -> outcome A * Store.

#[global] Instance M_ret : MRet M := fun A a σ => (Return a, σ).
#[global] Instance M_bind : MBind M := fun A B f m σ =>
  match m σ with
  | (Return a, σ') => f a σ'
  | (Throw e, σ') => (Throw e, σ')
  end.

(** A computation without effect on the store, run in [M]. *)
Definition lift {A} (o : outcome A) : M A := fun σ => (o, σ).

(** The array literal []: a new, empty array. *)
Definition new_array : M ref := fun σ => (Return (length σ), σ ++ [[]]).

(** [array.push(d)]. *)
Definition push (array : ref) (d : Diagnostic) : M unit := fun σ =>
  (Return tt, alter (fun ds => ds ++ [d]) array σ).

(** The elements of the array a reference points to. *)
Definition elements (σ : Store) (array : ref) : option (list Diagnostic) :=
  σ !! array.

(** [for (const x of xs) body]. *)
Fixpoint for_of {A} (xs : list A) (body : A -> M unit) : M unit :=
  match xs with
  | [] => mret tt
  | x :: xs' => body x;; for_of xs' body
  end.

(* ================================================================== *)
(** ** Regular expressions *)

(** The patterns modelled here: a sequence of terms, each the assertion
    [^], or a literal character, [.] or [\s], alone or under [*].  The
    validator's patterns are of this kind for every key free of pattern
    syntax; other patterns are left to the host's engine. *)
Inductive atom :=
| AChar (c : codeunit)
| ADot
| ASpace.

Inductive term :=
| TStart
| TOne (a : atom)
| TStar (a : atom).

Definition regex := list term.

(** The SyntaxCharacter class of the pattern grammar:
    [^ $ \ . * + ? ( ) [ ] { } |]. *)
Definition isSyntaxCharacter (c : codeunit) : bool :=
  bool_decide (c ∈ [94; 36; 92; 46; 42; 43; 63; 40; 41; 91; 93; 123; 125; 124]%N).

Inductive token :=
| KStart
| KAtom (a : atom)
| KStar.

(** The tokens of a pattern; [None] outside the patterns modelled. *)
Fixpoint tokens (p : jsstring) : option (list token) :=
  match p with
  | [] => Some []
  | c :: p1 =>
      if (c =? 94)%N then cons KStart <$> tokens p1
      else if (c =? 42)%N then cons KStar <$> tokens p1
      else if (c =? 46)%N then cons (KAtom ADot) <$> tokens p1
      else if (c =? 92)%N then
        match p1 with
        | c1 :: p2 =>
            if (c1 =? 115)%N then cons (KAtom ASpace) <$> tokens p2 else None
        | [] => None
        end
      else if isSyntaxCharacter c then None
      else cons (KAtom (AChar c)) <$> tokens p1
  end.

(** The terms of a token sequence: a [*] applies to the atom before it;
    [None] when there is none. *)
Fixpoint terms (ts : list token) : option regex :=
  match ts with
  | [] => Some []
  | KStart :: ts1 => cons TStart <$> terms ts1
  | KAtom a :: ts1 =>
      match ts1 with
      | KStar :: ts2 => cons (TStar a) <$> terms ts2
      | _ => cons (TOne a) <$> terms ts1
      end
  | KStar :: _ => None
  end.

Definition parse_pattern (p : jsstring) : option regex :=
  tokens p ≫= terms.

Definition atom_matches (a : atom) (c : codeunit) : bool :=
  match a with
  | AChar x => (c =? x)%N
  | ADot => negb (isLineTerminator c)
  | ASpace => isWhiteSpace c
  end.

(** Whether [r] matches a prefix of [s]; [bol] says whether [s] is the
    whole input (the only place where [^] holds: no [m] flag). *)
Fixpoint match_here (r : regex) (bol : bool) (s : jsstring) : bool :=
  match r with
  | [] => true
  | TStart :: r' => bol && match_here r' bol s
  | TOne a :: r' =>
      match s with
      | c :: s' => atom_matches a c && match_here r' false s'
      | [] => false
      end
  | TStar a :: r' =>
      (fix star (bol : bool) (s : jsstring) : bool :=
         match_here r' bol s
         || match s with
            | c :: s' => atom_matches a c && star false s'
            | [] => false
            end) bol s
  end.

(** Whether [r] matches somewhere in the input. *)
Fixpoint match_from (r : regex) (bol : bool) (s : jsstring) : bool :=
  match_here r bol s
  || match s with
     | _ :: s' => match_from r false s'
     | [] => false
     end.

(** [regex.test(s)] for a regular expression without flags. *)
Definition regex_test (r : regex) (s : jsstring) : bool := match_from r true s.

(* ================================================================== *)
(** ** The validator *)

(** The required fields ([REQUIRED_FIELDS]). *)
Definition REQUIRED_FIELDS : list jsstring := [js "name"; js "version"].

(** [createDiagnostic]. *)
Definition createDiagnostic
    (severity : DiagnosticSeverity.t) (line : Z) (message : jsstring)
  : Diagnostic :=
  {| LSP.severity := severity;
     LSP.range :=
       {| LSP.start := {| LSP.line := line; LSP.character := 0 |};
          LSP.end_ := {| LSP.line := line; LSP.character := 1000 |} |};
     LSP.message := message;
     LSP.source := js "myconfig-lsp" |}.

(** What [parseYamlText] returns. *)
Record ParseResult := { parsed : JsValue; error : option YAMLParseError }.

(* ================================================================== *)
(** ** The documentation of the fields *)

(** An entry of [FIELD_DOCS]. *)
Module FieldDoc.
Record t := { description : jsstring; type : jsstring; required : bool }.
End FieldDoc.

(** The own properties of [FIELD_DOCS], in the order of the source. *)
Definition FIELD_DOCS : list (jsstring * FieldDoc.t) :=
  [ (js "name",
     {| FieldDoc.description := js "アプリケーションの名前を指定します。";
        FieldDoc.type := js "string";
        FieldDoc.required := true |});
    (js "version",
     {| FieldDoc.description :=
          js "バージョン番号を指定します（例: " ++ quoted (js "1.0.0") ++ js "）。";
        FieldDoc.type := js "string";
        FieldDoc.required := true |});
    (js "enabled",
     {| FieldDoc.description := js "アプリケーションの有効/無効を設定します。";
        FieldDoc.type := js "boolean";
        FieldDoc.required := false |});
    (js "settings",
     {| FieldDoc.description := js "詳細設定オブジェクトです。";
        FieldDoc.type := js "object";
        FieldDoc.required := false |});
    (js "timeout",
     {| FieldDoc.description := js "タイムアウト時間（秒）を指定します。";
        FieldDoc.type := js "number";
        FieldDoc.required := false |});
    (js "retries",
     {| FieldDoc.description := js "リトライ回数を指定します。";
        FieldDoc.type := js "number";
        FieldDoc.required := false |}) ].

(** The properties of [Object.prototype], which every object literal
    inherits: functions, and the object [__proto__] gives, none of which
    has a property [description], [type] or [required]. *)
Definition Object_prototype : list jsstring :=
  [ js "constructor"; js "__defineGetter__"; js "__defineSetter__";
    js "hasOwnProperty"; js "__lookupGetter__"; js "__lookupSetter__";
    js "isPrototypeOf"; js "propertyIsEnumerable"; js "toString";
    js "valueOf"; js "__proto__"; js "toLocaleString" ].

(** What [FIELD_DOCS[key]] evaluates to: an entry, a member of
    [Object.prototype], or [undefined]. *)
Inductive doc_value :=
| Entry (doc : FieldDoc.t)
| Inherited
| NoDoc.

(** The first pair of an association list with the given key. *)
Fixpoint assoc {A} (key : jsstring) (pairs : list (jsstring * A)) : option A :=
  match pairs with
  | [] => None
  | (k, a) :: pairs' => if str_eq k key then Some a else assoc key pairs'
  end.

(** [FIELD_DOCS[key]]. *)
Definition FIELD_DOCS_at (key : jsstring) : doc_value :=
  match assoc key FIELD_DOCS with
  | Some doc => Entry doc
  | None =>
      if bool_decide (key ∈ Object_prototype) then Inherited else NoDoc
  end.

(* ================================================================== *)
(** ** The server *)

(** [vscode-languageserver]: completion items and hovers. *)
Module CompletionItemKind.
Definition Property : Z := 10.
End CompletionItemKind.

Module CompletionItem.
Record t := {
  label : jsstring;
  kind : Z;
  detail : jsstring;
  documentation : jsstring;
  insertText : jsstring
}.
End CompletionItem.

Module MarkupKind.
Definition Markdown : jsstring := js "markdown".
End MarkupKind.

Module Hover.
Record MarkupContent := { kind : jsstring; value : jsstring }.
Record t := { contents : MarkupContent }.
End Hover.

(** The parameters of a request at a position of a document. *)
Record TextDocumentPositionParams := {
  uri : jsstring;
  position : LSP.Position
}.

(** The documents the server manages, by URI, each with its text:
    [documents.get(uri)] and [getText()]. *)
Abbreviation TextDocuments := (gmap jsstring jsstring).

(** [xs[i]] for a number [i] that is an integer: [undefined] out of
    range. *)
Definition at_index {A} (xs : list A) (i : Z) : option A :=
  if i <? 0 then None else xs !! Z.to_nat i.

(** [\w] without flags: a letter of the basic Latin alphabet, a digit or
    the low line. *)
Definition isWordChar (c : codeunit) : bool :=
  ((48 <=? c) && (c <=? 57) || (65 <=? c) && (c <=? 90) || (c =? 95)
   || (97 <=? c) && (c <=? 122))%N.

(** The longest prefix of [s] whose code units are all in [class], and
    what follows it: what a greedy [class*] takes at the head of [s]. *)
Fixpoint span (class : codeunit → bool) (s : jsstring) : jsstring * jsstring :=
  match s with
  | c :: s' =>
      if class c then let '(prefix, rest) := span class s' in (c :: prefix, rest)
      else ([], s)
  | [] => ([], [])
  end.

(** The first group of [s.match], for the pattern of [onCompletion]: a
    start anchor and a group of any number of white space characters.
    The pattern matches every string. *)
Definition match_indent (s : jsstring) : jsstring := (span isWhiteSpace s).1.

(** [line.match(/^\s*(\w+)\s*:/)]: the first group when the pattern
    matches, [None] when it does not.  White space, word characters and
    the colon exclude each other, so every way to match takes the same
    key: the whole run of word characters after the leading white
    space. *)
Definition match_key (line : jsstring) : option jsstring :=
  let '(_, s1) := span isWhiteSpace line in
  let '(key, s2) := span isWordChar s1 in
  let '(_, s3) := span isWhiteSpace s2 in
  match key, s3 with
  | _ :: _, c :: _ => if (c =? colon)%N then Some key else None
  | _, _ => None
  end.

(** [xs.join(sep)]. *)
Fixpoint join (sep : jsstring) (xs : list jsstring) : jsstring :=
  match xs with
  | [] => []
  | [x] => x
  | x :: xs' => x ++ sep ++ join sep xs'
  end.

(** The completions inside [settings]. *)
Definition nested_completions : list CompletionItem.t :=
  [ {| CompletionItem.label := js "timeout";
       CompletionItem.kind := CompletionItemKind.Property;
       CompletionItem.detail := js "(number) タイムアウト時間";
       CompletionItem.documentation := js "タイムアウト時間（秒）を指定します。";
       CompletionItem.insertText := js "timeout: " |};
    {| CompletionItem.label := js "retries";
       CompletionItem.kind := CompletionItemKind.Property;
       CompletionItem.detail := js "(number) リトライ回数";
       CompletionItem.documentation := js "リトライ回数を指定します。";
       CompletionItem.insertText := js "retries: " |} ].

(** The completions at the top level. *)
Definition top_completions : list CompletionItem.t :=
  [ {| CompletionItem.label := js "name";
       CompletionItem.kind := CompletionItemKind.Property;
       CompletionItem.detail := js "(必須) アプリケーション名";
       CompletionItem.documentation := js "アプリケーションの名前を指定します。";
       CompletionItem.insertText := js "name: " |};
    {| CompletionItem.label := js "version";
       CompletionItem.kind := CompletionItemKind.Property;
       CompletionItem.detail := js "(必須) バージョン";
       CompletionItem.documentation :=
         js "バージョン番号を指定します（例: " ++ quoted (js "1.0.0") ++ js "）。";
       CompletionItem.insertText := js "version: " |};
    {| CompletionItem.label := js "enabled";
       CompletionItem.kind := CompletionItemKind.Property;
       CompletionItem.detail := js "(boolean) 有効/無効";
       CompletionItem.documentation := js "アプリケーションの有効/無効を設定します。";
       CompletionItem.insertText := js "enabled: " |};
    {| CompletionItem.label := js "settings";
       CompletionItem.kind := CompletionItemKind.Property;
       CompletionItem.detail := js "(object) 詳細設定";
       CompletionItem.documentation := js "詳細設定オブジェクトです。";
       CompletionItem.insertText := js "settings:" ++ newline :: js "  " |} ].

(** The handler of [connection.onCompletion]. *)
Definition onCompletion (documents : TextDocuments)
    (textDocumentPosition : TextDocumentPositionParams)
  : list CompletionItem.t :=
  match documents !! uri textDocumentPosition with
  | None => []
  | Some text =>
      let position := position textDocumentPosition in
      let lines := split newline text in
      let currentLine := default [] (at_index lines (LSP.line position)) in
      let indent := Z.of_nat (length (match_indent currentLine)) in
      if 2 <=? indent then nested_completions else top_completions
  end.

(** The handler of [connection.onCompletionResolve]. *)
Definition onCompletionResolve (item : CompletionItem.t) : CompletionItem.t :=
  item.

(** The handler of [connection.onHover]; [None] is [null]. *)
Definition onHover (documents : TextDocuments)
    (params : TextDocumentPositionParams)
  : option Hover.t :=
  match documents !! uri params with
  | None => None
  | Some text =>
      let position := position params in
      let lines := split newline text in
      match at_index lines (LSP.line position) with
      | None | Some [] => None
      | Some line =>
          match match_key line with
          | None => None
          | Some key =>
              match FIELD_DOCS_at key with
              | NoDoc => None
              | doc =>
                  let required :=
                    match doc with Entry d => FieldDoc.required d | _ => false end in
                  let type :=
                    match doc with Entry d => FieldDoc.type d | _ => js "undefined" end in
                  let description :=
                    match doc with Entry d => FieldDoc.description d | _ => [] end in
                  let requiredText :=
                    if required then js "**必須**" else js "オプション" in
                  Some
                    {| Hover.contents :=
                         {| Hover.kind := MarkupKind.Markdown;
                            Hover.value :=
                              join [newline]
                                [ js "**" ++ key ++ js "** (" ++ type ++ js ") - "
                                    ++ requiredText;
                                  [];
                                  description ] |} |}
              end
          end
      end
  end.

(* ================================================================== *)
(** ** The validator's functions *)

Section Host.

(** [parse] of the [yaml] package: the parsed value, or what it throws. *)
Variable parseYaml : jsstring -> outcome JsValue.

(** The host's regular expression engine on the patterns not modelled
    here: the [test] function of the regular expression, or what the
    constructor throws. *)
Variable hostRegExp : jsstring -> outcome (jsstring -> bool).

(** [new RegExp(pattern)], as its [test] function. *)
Definition RegExp (pattern : jsstring) : outcome (jsstring -> bool) :=
  match parse_pattern pattern with
  | Some r => Return (regex_test r)
  | None => hostRegExp pattern
  end.

(** The loop of [findLineForKey], from index [i] on. *)
Fixpoint findLine_from (test : jsstring -> bool) (lines : list jsstring) (i : Z) : Z :=
  match lines with
  | [] => 0
  | l :: lines' => if test l then i else findLine_from test lines' (i + 1)
  end.

(** [findLineForKey]. *)
Definition findLineForKey (text key : jsstring) : outcome Z :=
  let lines := split newline text in
  regex ← RegExp (js "^\s*" ++ key ++ js "\s*:");
  Return (findLine_from regex lines 0).

(** [parseYamlText]. *)
Definition parseYamlText (text : jsstring) : outcome ParseResult :=
  match parseYaml text with
  | Return parsed => Return {| parsed := parsed; error := None |}
  | Throw (ExnYAMLParseError e) => Return {| parsed := JsNull; error := Some e |}
  | Throw e => Throw e
  end.

(** [validateConfig]. *)
Definition validateConfig (config : Record_) (text : jsstring) : M ref :=
  diagnostics ← new_array;
  for_of REQUIRED_FIELDS (fun field =>
    if negb (has field config) then
      push diagnostics
        (createDiagnostic DiagnosticSeverity.Error 0
           (js "必須フィールド " ++ quoted field ++ js " がありません"))
    else mret tt);;
  (if has (js "name") config
      && negb (str_eq (typeof (get (js "name") config)) (js "string")) then
     line ← lift (findLineForKey text (js "name"));
     push diagnostics
       (createDiagnostic DiagnosticSeverity.Error line
          (quoted (js "name") ++ js " は文字列である必要があります"))
   else mret tt);;
  (if has (js "version") config
      && negb (str_eq (typeof (get (js "version") config)) (js "string")) then
     line ← lift (findLineForKey text (js "version"));
     push diagnostics
       (createDiagnostic DiagnosticSeverity.Error line
          (quoted (js "version") ++ js " は文字列である必要があります"))
   else mret tt);;
  (if has (js "enabled") config
      && negb (str_eq (typeof (get (js "enabled") config)) (js "boolean")) then
     line ← lift (findLineForKey text (js "enabled"));
     push diagnostics
       (createDiagnostic DiagnosticSeverity.Warning line
          (quoted (js "enabled")
           ++ js " は真偽値である必要があります（true または false）"))
   else mret tt);;
  (if has (js "settings") config then
     let settings := get (js "settings") config in
     if negb (str_eq (typeof settings) (js "object")) || is_null settings then
       line ← lift (findLineForKey text (js "settings"));
       push diagnostics
         (createDiagnostic DiagnosticSeverity.Error line
            (quoted (js "settings") ++ js " はオブジェクトである必要があります"))
     else
       let s := as_Record settings in
       (if has (js "timeout") s
           && negb (str_eq (typeof (get (js "timeout") s)) (js "number")) then
          line ← lift (findLineForKey text (js "timeout"));
          push diagnostics
            (createDiagnostic DiagnosticSeverity.Warning line
               (quoted (js "settings.timeout") ++ js " は数値である必要があります"))
        else mret tt);;
       (if has (js "retries") s
           && negb (str_eq (typeof (get (js "retries") s)) (js "number")) then
          line ← lift (findLineForKey text (js "retries"));
          push diagnostics
            (createDiagnostic DiagnosticSeverity.Warning line
               (quoted (js "settings.retries") ++ js " は数値である必要があります"))
        else mret tt);;
       (if has (js "retries") s
           && str_eq (typeof (get (js "retries") s)) (js "number")
           && is_negative (get (js "retries") s) then
          line ← lift (findLineForKey text (js "retries"));
          push diagnostics
            (createDiagnostic DiagnosticSeverity.Warning line
               (quoted (js "settings.retries") ++ js " は0以上である必要があります"))
        else mret tt)
   else mret tt);;
  mret diagnostics.

(** [validateText]. *)
Definition validateText (text : jsstring) : M ref :=
  diagnostics ← new_array;
  if str_eq (trim text) (js "") then mret diagnostics
  else
    '{| parsed := parsed; error := error |} ← lift (parseYamlText text);
    match error with
    | Some error =>
        let pos := fst <$> YAML.linePos error in
        push diagnostics
          (createDiagnostic DiagnosticSeverity.Error
             (default 1 (YAML.line <$> pos) - 1)
             (js "YAML構文エラー: " ++ YAML.message error));;
        mret diagnostics
    | None =>
        if negb (str_eq (typeof parsed) (js "object")) || is_null parsed
           || isArray parsed then
          push diagnostics
            (createDiagnostic DiagnosticSeverity.Error 0
               (js "ルート要素はオブジェクトである必要があります"));;
          mret diagnostics
        else validateConfig (as_Record parsed) text
    end.

(* ================================================================== *)
(** ** The vocabulary of the properties *)

(** A text is blank when it is empty or all its code units are white
    space. *)
Definition blank (text : jsstring) : bool := forallb isWhiteSpace text.

(** A key free of pattern syntax: what the specification calls a bare
    word. *)
Definition bare_word (key : jsstring) : Prop :=
  Forall (fun c => isSyntaxCharacter c = false) key.

(** A line declares [key]: optional white space, the key, optional white
    space, a colon, and anything after it. *)
Definition declares (key line : jsstring) : Prop :=
  ∃ ws1 ws2 rest,
    line = ws1 ++ key ++ ws2 ++ colon :: rest
    ∧ blank ws1 = true ∧ blank ws2 = true.

(** The regular expression of the pattern [^\s*key\s*:] when [key] is
    taken literally. *)
Definition key_regex (key : jsstring) : regex :=
  TStart :: TStar ASpace :: map (fun c => TOne (AChar c)) key
    ++ [TStar ASpace; TOne (AChar colon)].

(** [line] is the index of the first of [lines] that satisfies [P], or 0
    when none does. *)
Definition first_line (P : jsstring → Prop) (lines : list jsstring) (line : Z) : Prop :=
  (∃ (n : nat) l,
      lines !! n = Some l ∧ P l
      ∧ (∀ (m : nat) l', (m < n)%nat → lines !! m = Some l' → ¬ P l')
      ∧ line = Z.of_nat n)
  ∨ ((∀ l, l ∈ lines → ¬ P l) ∧ line = 0).

(** The line of a key taken literally. *)
Definition line_of (text key : jsstring) : Z :=
  findLine_from (regex_test (key_regex key)) (split newline text) 0.

(** [m] returns [result] and appends [new] to the array [array], and does
    nothing else to the store. *)
Definition pushes {A} (m : M A) (array : ref) (new : list Diagnostic) (result : A) : Prop :=
  ∀ σ, m σ = (Return result, alter (fun ds => ds ++ new) array σ).

(** The messages of the validator. *)
Definition msg_missing (field : jsstring) : jsstring :=
  js "必須フィールド " ++ quoted field ++ js " がありません".
Definition msg_string (field : jsstring) : jsstring :=
  quoted field ++ js " は文字列である必要があります".
Definition msg_enabled : jsstring :=
  quoted (js "enabled") ++ js " は真偽値である必要があります（true または false）".
Definition msg_settings : jsstring :=
  quoted (js "settings") ++ js " はオブジェクトである必要があります".
Definition msg_timeout : jsstring :=
  quoted (js "settings.timeout") ++ js " は数値である必要があります".
Definition msg_retries_number : jsstring :=
  quoted (js "settings.retries") ++ js " は数値である必要があります".
Definition msg_retries_negative : jsstring :=
  quoted (js "settings.retries") ++ js " は0以上である必要があります".
Definition msg_syntax (underlying : jsstring) : jsstring :=
  js "YAML構文エラー: " ++ underlying.
Definition msg_root : jsstring :=
  js "ルート要素はオブジェクトである必要があります".

(** [key] is a property of [o] and the runtime type of its value is not
    [type]. *)
Definition mistyped (key type : jsstring) (o : Record_) : bool :=
  has key o && negb (str_eq (typeof (get key o)) type).

(** The diagnostic [d] when [b] holds, nothing otherwise. *)
Definition when (b : bool) (d : Diagnostic) : list Diagnostic :=
  if b then [d] else [].

(** What [validateConfig] pushes for the [settings] property. *)
Definition settings_findings (config : Record_) (text : jsstring) : list Diagnostic :=
  if has (js "settings") config then
    let settings := get (js "settings") config in
    if negb (str_eq (typeof settings) (js "object")) || is_null settings then
      [createDiagnostic DiagnosticSeverity.Error
         (line_of text (js "settings")) msg_settings]
    else
      let s := as_Record settings in
      when (mistyped (js "timeout") (js "number") s)
        (createDiagnostic DiagnosticSeverity.Warning
           (line_of text (js "timeout")) msg_timeout)
      ++ when (mistyped (js "retries") (js "number") s)
           (createDiagnostic DiagnosticSeverity.Warning
              (line_of text (js "retries")) msg_retries_number)
      ++ when (has (js "retries") s
               && str_eq (typeof (get (js "retries") s)) (js "number")
               && is_negative (get (js "retries") s))
           (createDiagnostic DiagnosticSeverity.Warning
              (line_of text (js "retries")) msg_retries_negative)
  else [].

(** What [validateConfig] pushes after the required fields. *)
Definition later_findings (config : Record_) (text : jsstring) : list Diagnostic :=
  when (mistyped (js "name") (js "string") config)
    (createDiagnostic DiagnosticSeverity.Error
       (line_of text (js "name")) (msg_string (js "name")))
  ++ when (mistyped (js "version") (js "string") config)
       (createDiagnostic DiagnosticSeverity.Error
          (line_of text (js "version")) (msg_string (js "version")))
  ++ when (mistyped (js "enabled") (js "boolean") config)
       (createDiagnostic DiagnosticSeverity.Warning
          (line_of text (js "enabled")) msg_enabled)
  ++ settings_findings config text.

(** What [validateConfig] pushes in all, in the order it pushes it. *)
Definition findings (config : Record_) (text : jsstring) : list Diagnostic :=
  (REQUIRED_FIELDS ≫= fun field =>
     when (negb (has field config))
       (createDiagnostic DiagnosticSeverity.Error 0 (msg_missing field)))
  ++ later_findings config text.

(** The line of a syntax error: the line before the reported one, 0 when
    the error has no position. *)
Definition error_line (e : YAMLParseError) : Z :=
  match YAML.linePos e with
  | Some (pos, _) => YAML.line pos - 1
  | None => 0
  end.

(** The finding of a syntax error. *)
Definition syntax_finding (e : YAMLParseError) : Diagnostic :=
  createDiagnostic DiagnosticSeverity.Error (error_line e)
    (msg_syntax (YAML.message e)).

(** The finding of a root that is no object. *)
Definition root_finding : Diagnostic :=
  createDiagnostic DiagnosticSeverity.Error 0 msg_root.

(** Run in the store [σ], [m] returns an array whose elements are [ds]. *)
Definition returns (m : M ref) (σ : Store) (ds : list Diagnostic) : Prop :=
  ∃ array σ', m σ = (Return array, σ') ∧ elements σ' array = Some ds.

(** The kinds of finding of [validateConfig]: the message and the
    severity of each. *)
Definition KINDS : list (jsstring * DiagnosticSeverity.t) :=
  [ (msg_missing (js "name"), DiagnosticSeverity.Error);
    (msg_missing (js "version"), DiagnosticSeverity.Error);
    (msg_string (js "name"), DiagnosticSeverity.Error);
    (msg_string (js "version"), DiagnosticSeverity.Error);
    (msg_enabled, DiagnosticSeverity.Warning);
    (msg_settings, DiagnosticSeverity.Error);
    (msg_timeout, DiagnosticSeverity.Warning);
    (msg_retries_number, DiagnosticSeverity.Warning);
    (msg_retries_negative, DiagnosticSeverity.Warning) ].


(** The document of the specification's example for [findLineForKey]. *)
Definition example_document : jsstring := js "name: test
settings:
  timeout: 30
  retries: 3".

(** The severity of a finding fits what it is about: error when it is
    about a required field that is missing or is not a string, warning
    when it is about the value of [enabled], [settings.timeout] or
    [settings.retries], and error when it is about [settings] not being
    an object. *)
Definition severity_fits (d : Diagnostic) : Prop :=
  ((∃ field, field ∈ REQUIRED_FIELDS
             ∧ (LSP.message d = msg_missing field
                ∨ LSP.message d = msg_string field))
   → LSP.severity d = DiagnosticSeverity.Error)
  ∧ (LSP.message d ∈ [msg_enabled; msg_timeout; msg_retries_number;
                      msg_retries_negative]
     → LSP.severity d = DiagnosticSeverity.Warning)
  ∧ (LSP.message d = msg_settings
     → LSP.severity d = DiagnosticSeverity.Error).

(** What the caller of [m] observes: the elements of the array returned,
    or what was thrown. *)
Definition result (m : M ref) (σ : Store) : outcome (option (list Diagnostic)) :=
  match m σ with
  | (Return array, σ') => Return (elements σ' array)
  | (Throw e, _) => Throw e
  end.

(** The source and the range [createDiagnostic] gives a finding: the
    whole of one line, from character 0 to character 1000. *)
Definition well_formed (d : Diagnostic) : Prop :=
  LSP.source d = js "myconfig-lsp"
  ∧ LSP.line (LSP.start (LSP.range d)) = LSP.line (LSP.end_ (LSP.range d))
  ∧ LSP.character (LSP.start (LSP.range d)) = 0
  ∧ LSP.character (LSP.end_ (LSP.range d)) = 1000.

(** The line a finding is at. *)
Definition line_at (d : Diagnostic) : Z := LSP.line (LSP.start (LSP.range d)).

(** *** Inputs the properties are tried on *)

(** A host whose engine rejects every pattern left to it. *)
Definition no_engine : jsstring → outcome (jsstring → bool) :=
  fun pattern => Throw (ExnSyntaxError pattern).


(** A syntax error reported at line 2, column 21. *)
Definition unclosed : YAMLParseError :=
  {| YAML.message := js "Flow sequence in block collection must be sufficiently indented and end with a ]";
     YAML.linePos := Some ({| YAML.line := 2; YAML.col := 21 |}, None) |}.

(** A parser that throws that syntax error on every text. *)
Definition parse_fails : jsstring → outcome JsValue :=
  fun _ => Throw (ExnYAMLParseError unclosed).

(** The [Uint8Array] of the two bytes of [hi]: what the parser makes of
    the scalar [!!binary aGk=]. *)
Definition binary_hi : JsValue :=
  JsExotic ClassUint8Array
    (<[js "0" := JsNumber 104%float]> (<[js "1" := JsNumber 105%float]> ∅)).

(** A parser that reads every text as that binary scalar. *)
Definition parse_as_binary : jsstring → outcome JsValue :=
  fun _ => Return binary_hi.

(** A mapping whose [settings.retries] is -1. *)
Definition negative_retries : Record_ :=
  <[js "name" := JsString (js "test")]>
    (<[js "version" := JsString (js "1.0.0")]>
       (<[js "settings" := JsObject (<[js "retries" := JsNumber (-1)%float]> ∅)]> ∅)).

(** A mapping whose [settings] is a string. *)
Definition settings_invalid : Record_ :=
  <[js "name" := JsString (js "test")]>
    (<[js "version" := JsString (js "1.0.0")]>
       (<[js "settings" := JsString (js "invalid")]> ∅)).

(** *** Mappings the validator accepts *)

(** A value of [settings] about which [validateConfig] reports nothing:
    an array, or an object, plain or not, whose [timeout], if any, is a
    number and whose [retries], if any, is a number that is not below
    0. *)
Definition accepted_settings (settings : JsValue) : Prop :=
  match settings with
  | JsObject s | JsExotic _ s =>
      (∀ v, s !! js "timeout" = Some v → typeof v = js "number")
      ∧ (∀ v, s !! js "retries" = Some v →
              typeof v = js "number" ∧ is_negative v = false)
  | JsArray _ => True
  | _ => False
  end.

(** A mapping about which [validateConfig] reports nothing: [name] and
    [version] are strings, [enabled], if any, is a boolean, and
    [settings], if any, is accepted. *)
Definition accepted (config : Record_) : Prop :=
  (∃ v, config !! js "name" = Some v ∧ typeof v = js "string")
  ∧ (∃ v, config !! js "version" = Some v ∧ typeof v = js "string")
  ∧ (∀ v, config !! js "enabled" = Some v → typeof v = js "boolean")
  ∧ (∀ v, config !! js "settings" = Some v → accepted_settings v).

(** *** Words and hovers *)

(** A word: one or more word characters. *)
Definition word (key : jsstring) : Prop :=
  key ≠ [] ∧ forallb isWordChar key = true.

(** The hover that documents [key] with a type, a required mark and a
    description. *)
Definition hover_text (key type : jsstring) (required : bool) (description : jsstring)
  : Hover.t :=
  {| Hover.contents :=
       {| Hover.kind := js "markdown";
          Hover.value :=
            js "**" ++ key ++ js "** (" ++ type ++ js ") - "
            ++ (if required then js "**必須**" else js "オプション")
            ++ [newline; newline] ++ description |} |}.

(** The line a position is on, when the text has such a line. *)
Definition line_of_position (text : jsstring) (position : LSP.Position)
  : option jsstring :=
  at_index (split newline text) (LSP.line position).

(** *** More inputs the properties are tried on *)

(** A parser that reads every text as the mapping [negative_retries]. *)
Definition parse_as_mapping : jsstring → outcome JsValue :=
  fun _ => Return (JsObject negative_retries).

(** The documents of a server that manages the example document. *)
Definition example_documents : TextDocuments :=
  {[ js "file:///sample/valid.myconfig" := example_document ]}.

(** The entry of [timeout] in [FIELD_DOCS]. *)
Definition timeout_doc : FieldDoc.t :=
  {| FieldDoc.description := js "タイムアウト時間（秒）を指定します。";
     FieldDoc.type := js "number";
     FieldDoc.required := false |}.

(* ================================================================== *)
(** * Properties of the model *)

(** ** The definitions on small inputs *)

Example js_ascii : js "name" = [110; 97; 109; 101]%N.
Proof. reflexivity. Qed.

Example js_bmp : js "必須" = [24517; 38920]%N.
Proof. reflexivity. Qed.

Example split_lines : split newline (js "a
b") = [js "a"; js "b"].
Proof. reflexivity. Qed.

Example pattern_name :
  parse_pattern (js "^\s*name\s*:")
  = Some [TStart; TStar ASpace; TOne (AChar 110); TOne (AChar 97);
          TOne (AChar 109); TOne (AChar 101); TStar ASpace; TOne (AChar 58)]%N.
Proof. reflexivity. Qed.

Example test_indented :
  regex_test [TStart; TStar ASpace; TOne (AChar 97); TStar ASpace; TOne (AChar 58)]%N
             (js "  a : 1") = true.
Proof. reflexivity. Qed.

Example test_not_at_start :
  regex_test [TStart; TStar ASpace; TOne (AChar 97); TStar ASpace; TOne (AChar 58)]%N
             (js "- a: 1") = false.
Proof. reflexivity. Qed.

(* ------------------------------------------------------------------ *)
(** ** Blank texts *)

Lemma trimStart_blank s : blank s = true → trimStart s = [].
Proof.
  induction s as [|c s IH]; simpl; [done|].
  intros [Hc Hs]%andb_prop. rewrite Hc. auto.
Qed.

Lemma trimStart_head s :
  trimStart s = [] ∨ ∃ c s', trimStart s = c :: s' ∧ isWhiteSpace c = false.
Proof.
  induction s as [|c s IH]; simpl; [by left|].
  destruct (isWhiteSpace c) eqn:Hc; [done|]. right. eauto.
Qed.

Lemma trimStart_nil s : trimStart s = [] → blank s = true.
Proof.
  induction s as [|c s IH]; simpl; [done|].
  destruct (isWhiteSpace c); [auto | done].
Qed.

Lemma blank_reverse s : blank (reverse s) = blank s.
Proof.
  unfold blank. induction s as [|c s IH]; [done|].
  rewrite reverse_cons, forallb_app, IH. simpl.
  rewrite andb_true_r. apply andb_comm.
Qed.

Lemma trim_blank s : str_eq (trim s) (js "") = blank s.
Proof.
  unfold str_eq, trim, trimEnd. change (js "") with (@nil N).
  destruct (blank s) eqn:Hb.
  - apply bool_decide_eq_true. by rewrite (trimStart_blank s Hb).
  - apply bool_decide_eq_false. intros Hnil.
    apply (f_equal reverse) in Hnil. rewrite reverse_involutive in Hnil.
    apply trimStart_nil in Hnil. rewrite blank_reverse in Hnil.
    destruct (trimStart_head s) as [H0|(c & s' & Hs & Hc)].
    + apply trimStart_nil in H0. congruence.
    + rewrite Hs in Hnil. simpl in Hnil. by rewrite Hc in Hnil.
Qed.

(* ------------------------------------------------------------------ *)
(** ** The pattern of a key *)

Lemma tokens_literal key rest :
  bare_word key →
  tokens (key ++ rest) = (app (map (fun c => KAtom (AChar c)) key)) <$> tokens rest.
Proof.
  induction 1 as [|c key Hc _ IH]; simpl.
  - by destruct (tokens rest).
  - pose proof Hc as Hsyn.
    unfold isSyntaxCharacter in Hc. apply bool_decide_eq_false in Hc.
    destruct (N.eqb_spec c 94) as [->|_]; [destruct Hc; set_solver|].
    destruct (N.eqb_spec c 42) as [->|_]; [destruct Hc; set_solver|].
    destruct (N.eqb_spec c 46) as [->|_]; [destruct Hc; set_solver|].
    destruct (N.eqb_spec c 92) as [->|_]; [destruct Hc; set_solver|].
    rewrite Hsyn, IH. by destruct (tokens rest).
Qed.

Lemma terms_literal key a ts :
  terms (map (fun c => KAtom (AChar c)) key ++ KAtom a :: ts)
  = (app (map (fun c => TOne (AChar c)) key)) <$> terms (KAtom a :: ts).
Proof.
  induction key as [|c key IH].
  - simpl app. by destruct (terms _).
  - change (terms (KAtom (AChar c)
              :: (map (fun c => KAtom (AChar c)) key ++ KAtom a :: ts))
            = (app (map (fun c => TOne (AChar c)) (c :: key)))
                <$> terms (KAtom a :: ts)).
    assert (Hhead : ∀ l : list token,
      (∀ l', l ≠ KStar :: l') →
      terms (KAtom (AChar c) :: l) = cons (TOne (AChar c)) <$> terms l).
    { intros [|[| |] l] Hl; try done. by destruct (Hl l). }
    rewrite Hhead.
    + rewrite IH. by destruct (terms (KAtom a :: ts)).
    + by destruct key.
Qed.

(** For a bare word the pattern is read as [key_regex]. *)
Lemma parse_pattern_bare key :
  bare_word key →
  parse_pattern (js "^\s*" ++ key ++ js "\s*:") = Some (key_regex key).
Proof.
  intros Hkey. unfold parse_pattern.
  change (js "^\s*" ++ key ++ js "\s*:")
    with (94 :: 92 :: 115 :: 42 :: (key ++ js "\s*:"))%N.
  cbn [tokens N.eqb Pos.eqb]. rewrite (tokens_literal _ _ Hkey).
  change (tokens (js "\s*:"))
    with (Some [KAtom ASpace; KStar; KAtom (AChar colon)]).
  cbn [fmap option_fmap option_map mbind option_bind].
  change (terms (KStart :: KAtom ASpace :: KStar
                   :: (map (fun c => KAtom (AChar c)) key
                         ++ [KAtom ASpace; KStar; KAtom (AChar colon)])))
    with (cons TStart <$> (cons (TStar ASpace) <$>
            terms (map (fun c => KAtom (AChar c)) key
                     ++ [KAtom ASpace; KStar; KAtom (AChar colon)]))).
  by rewrite terms_literal.
Qed.

(* ------------------------------------------------------------------ *)
(** ** What the pattern of a key matches *)

Lemma match_here_star a r b s :
  match_here (TStar a :: r) b s
  = match_here r b s
    || match s with
       | c :: s' => atom_matches a c && match_here (TStar a :: r) false s'
       | [] => false
       end.
Proof. by destruct s. Qed.

Lemma match_tail b s :
  match_here [TStar ASpace; TOne (AChar colon)] b s = true
  ↔ ∃ ws rest, s = ws ++ colon :: rest ∧ blank ws = true.
Proof.
  revert b. induction s as [|c s IH]; intros b; rewrite match_here_star.
  - simpl. split; [done|]. by intros ([|??] & ? & ? & _).
  - cbn [match_here atom_matches]. rewrite andb_true_r, orb_true_iff, andb_true_iff, IH.
    split.
    + intros [->%N.eqb_eq | (Hc & ws & rest & -> & Hws)].
      * by exists [], s.
      * exists (c :: ws), rest. simpl. by rewrite Hc.
    + intros ([|c' ws] & rest & Heq & Hws); injection Heq as -> ->.
      * left. apply N.eqb_refl.
      * apply andb_prop in Hws as [Hc Hws]. right. eauto.
Qed.

Lemma match_literal key r b s :
  (∀ b b' s, match_here r b s = match_here r b' s) →
  match_here (map (fun c => TOne (AChar c)) key ++ r) b s = true
  ↔ ∃ s', s = key ++ s' ∧ match_here r false s' = true.
Proof.
  intros Hr. revert b s. induction key as [|k key IH]; intros b s.
  - simpl. rewrite (Hr b false). split; [eauto|]. by intros (? & -> & ?).
  - destruct s as [|c s]; cbn [map app match_here atom_matches].
    + split; [done|]. by intros (? & ? & _).
    + rewrite andb_true_iff, IH, N.eqb_eq. split.
      * intros (-> & s' & -> & ?). eauto.
      * intros (s' & Heq & ?). injection Heq as -> ->. eauto.
Qed.

Lemma match_spaces r b s :
  (∀ b b' s, match_here r b s = match_here r b' s) →
  match_here (TStar ASpace :: r) b s = true
  ↔ ∃ ws s', s = ws ++ s' ∧ blank ws = true ∧ match_here r false s' = true.
Proof.
  intros Hr. revert b. induction s as [|c s IH]; intros b; rewrite match_here_star.
  - rewrite orb_false_r, (Hr b false). split.
    + intros ?. by exists [], [].
    + by intros ([|??] & [|??] & ? & _ & ?).
  - cbn [atom_matches]. rewrite orb_true_iff, andb_true_iff, IH, (Hr b false).
    split.
    + intros [? | (Hc & ws & s' & -> & Hws & ?)].
      * by exists [], (c :: s).
      * exists (c :: ws), s'. simpl. by rewrite Hc.
    + intros ([|c' ws] & s' & Heq & Hws & ?).
      * left. by rewrite Heq.
      * injection Heq as -> ->.
        apply andb_prop in Hws as [Hc Hws]. right. eauto 6.
Qed.

Lemma match_from_start r s : match_from (TStart :: r) false s = false.
Proof. induction s as [|c s IH]; simpl; [done|]. exact IH. Qed.

(** The regular expression of a key tests whether a line declares it. *)
Lemma regex_test_key key line :
  regex_test (key_regex key) line = true ↔ declares key line.
Proof.
  assert (Htail : ∀ b b' s,
    match_here [TStar ASpace; TOne (AChar colon)] b s
    = match_here [TStar ASpace; TOne (AChar colon)] b' s).
  { intros b b' s. apply eq_true_iff_eq. by rewrite !match_tail. }
  assert (Hkey : ∀ b b' s,
    match_here (map (fun c => TOne (AChar c)) key
                  ++ [TStar ASpace; TOne (AChar colon)]) b s
    = match_here (map (fun c => TOne (AChar c)) key
                  ++ [TStar ASpace; TOne (AChar colon)]) b' s).
  { intros b b' s. apply eq_true_iff_eq. by rewrite !match_literal. }
  unfold regex_test, key_regex, declares.
  assert (Hfrom : ∀ r, match_from (TStart :: r) true line
                       = match_here r true line).
  { intros r. destruct line; simpl; [by rewrite orb_false_r|].
    by rewrite match_from_start, orb_false_r. }
  rewrite Hfrom, match_spaces by done. split.
  - intros (ws1 & s1 & -> & Hws1 & (s2 & -> & (ws2 & rest & -> & Hws2)%match_tail)%match_literal);
      [eauto 6 | done].
  - intros (ws1 & ws2 & rest & -> & Hws1 & Hws2).
    exists ws1, (key ++ ws2 ++ colon :: rest). split_and!; [done..|].
    apply match_literal; [done|]. eexists; split; [done|].
    apply match_tail. eauto.
Qed.

(* ------------------------------------------------------------------ *)
(** ** The line [findLineForKey] returns *)

Lemma findLine_from_first test lines i :
  (∃ (n : nat) l,
      lines !! n = Some l ∧ test l = true
      ∧ (∀ (m : nat) l', (m < n)%nat → lines !! m = Some l' → test l' = false)
      ∧ findLine_from test lines i = i + Z.of_nat n)
  ∨ ((∀ l, l ∈ lines → test l = false) ∧ findLine_from test lines i = 0).
Proof.
  revert i. induction lines as [|l lines IH]; intros i; simpl.
  - right. split; [|done]. by intros ? ?%elem_of_nil.
  - destruct (test l) eqn:Hl.
    + left. exists 0%nat, l. split_and!; [done..|lia|lia].
    + destruct (IH (i + 1)) as [(n & l' & Hn & Hl' & Hmin & ->)|[Hnone ->]].
      * left. exists (S n), l'. split_and!; [done..| |lia].
        intros [|m] l'' Hm Hl''; simplify_eq/=; [done|].
        apply (Hmin m); [lia|done].
      * right. split; [|done].
        intros l' [->|?]%elem_of_cons; auto.
Qed.

Lemma line_of_first text key :
  first_line (declares key) (split newline text) (line_of text key).
Proof.
  unfold line_of.
  destruct (findLine_from_first (regex_test (key_regex key))
              (split newline text) 0)
    as [(n & l & Hn & Hl & Hmin & ->)|[Hnone ->]]; [left|right].
  - exists n, l. split_and!; [done|by apply regex_test_key| |lia].
    intros m l' Hm Hl' Hdecl%regex_test_key.
    by rewrite (Hmin m l' Hm Hl') in Hdecl.
  - split; [|done]. intros l Hl Hdecl%regex_test_key.
    by rewrite (Hnone l Hl) in Hdecl.
Qed.

Lemma findLineForKey_bare text key :
  bare_word key → findLineForKey text key = Return (line_of text key).
Proof.
  intros Hkey. unfold findLineForKey, RegExp.
  by rewrite (parse_pattern_bare key Hkey).
Qed.

Lemma bare_word_forallb key :
  forallb (fun c => negb (isSyntaxCharacter c)) key = true → bare_word key.
Proof.
  intros H. apply Forall_forall. intros c Hc%list_elem_of_In.
  rewrite forallb_forall in H. by apply negb_true_iff, H.
Qed.

(* ------------------------------------------------------------------ *)
(** ** Computations that push to one array *)

Lemma pushes_ret {A} (x : A) array : pushes (mret x) array [] x.
Proof.
  intros σ. unfold mret, M_ret. f_equal. symmetry.
  apply list_alter_id. intros ds. apply app_nil_r.
Qed.

Lemma pushes_push array d : pushes (push array d) array [d] tt.
Proof. by intros σ. Qed.

Lemma pushes_bind {A B} (m : M A) (k : A → M B) array new1 new2 x y :
  pushes m array new1 x → pushes (k x) array new2 y →
  pushes (m ≫= k) array (new1 ++ new2) y.
Proof.
  intros Hm Hk σ. unfold mbind, M_bind. rewrite Hm. cbv beta iota.
  rewrite Hk. f_equal.
  rewrite list_alter_alter_eq. apply list_alter_ext; [|done].
  intros ds _. simpl. by rewrite app_assoc.
Qed.

Lemma pushes_lift {A B} (o : outcome A) (k : A → M B) array new x y :
  o = Return x → pushes (k x) array new y →
  pushes (lift o ≫= k) array new y.
Proof. intros -> Hk σ. unfold mbind, M_bind, lift. apply Hk. Qed.

Lemma pushes_for_of {A} (xs : list A) (body : A → M unit) array (new : A → list Diagnostic) :
  (∀ x, pushes (body x) array (new x) tt) →
  pushes (for_of xs body) array (xs ≫= new) tt.
Proof.
  intros Hbody. induction xs as [|x xs IH]; simpl.
  - apply pushes_ret.
  - by eapply pushes_bind.
Qed.

(** A new array that a computation fills and returns. *)
Lemma pushes_new_array (body : ref → M ref) new σ :
  (∀ array, pushes (body array) array new array) →
  (new_array ≫= body) σ = (Return (length σ), σ ++ [new]).
Proof.
  intros Hbody. unfold mbind, M_bind, new_array. cbv beta iota.
  rewrite Hbody. f_equal.
  rewrite <-(Nat.add_0_r (length σ)) at 1. by rewrite alter_app_r.
Qed.

(* ------------------------------------------------------------------ *)
(** ** The findings of [validateConfig] *)

Lemma pushes_when (c : bool) text key severity msg array :
  bare_word key →
  pushes (if c then
            line ← lift (findLineForKey text key);
            push array (createDiagnostic severity line msg)
          else mret tt)
    array (when c (createDiagnostic severity (line_of text key) msg)) tt.
Proof.
  intros Hkey. destruct c; simpl when.
  - eapply pushes_lift; [by apply findLineForKey_bare|]. apply pushes_push.
  - apply pushes_ret.
Qed.

Ltac bare := apply bare_word_forallb; reflexivity.

(** [validateConfig] allocates one array, fills it with [findings] and
    returns it; it does not throw. *)
Lemma validateConfig_run config text σ :
  validateConfig config text σ = (Return (length σ), σ ++ [findings config text]).
Proof.
  unfold validateConfig. apply pushes_new_array. intros array.
  unfold findings, later_findings.
  rewrite <-(app_nil_r (settings_findings config text)).
  repeat (eapply pushes_bind;
          [first [ apply pushes_when; bare
                 | apply pushes_for_of; intros field;
                   destruct (negb (has field config));
                   [apply pushes_push | apply pushes_ret]
                 | idtac ] |]).
  2: apply pushes_ret.
  unfold settings_findings.
  destruct (has (js "settings") config); [|apply pushes_ret].
  cbv zeta.
  destruct (negb (str_eq (typeof (get (js "settings") config)) (js "object"))
            || is_null (get (js "settings") config)).
  - eapply pushes_lift; [apply findLineForKey_bare; bare|]. apply pushes_push.
  - eapply pushes_bind; [apply pushes_when; bare|].
    eapply pushes_bind; [apply pushes_when; bare|].
    rewrite <-(app_nil_r (when _ _)), app_nil_r. apply pushes_when; bare.
Qed.

(* ------------------------------------------------------------------ *)
(** ** The findings of [validateText] *)

(** [validateText], case by case.  It allocates an array of its own
    first; when it hands over to [validateConfig], that array stays empty
    and the one [validateConfig] allocates is returned. *)
Lemma validateText_run text σ :
  validateText text σ =
    if blank text then (Return (length σ), σ ++ [[]])
    else match parseYaml text with
         | Throw (ExnYAMLParseError e) =>
             (Return (length σ), σ ++ [[syntax_finding e]])
         | Throw e => (Throw e, σ ++ [[]])
         | Return (JsObject props) | Return (JsExotic _ props) =>
             (Return (S (length σ)), σ ++ [[]; findings props text])
         | Return _ => (Return (length σ), σ ++ [[root_finding]])
         end.
Proof.
  assert (Hpush : ∀ d : Diagnostic,
    alter (fun ds => ds ++ [d]) (length σ) (σ ++ [[]]) = σ ++ [[d]]).
  { intros d. rewrite <-(Nat.add_0_r (length σ)) at 1. by rewrite alter_app_r. }
  unfold validateText, mbind at 1, M_bind, new_array. cbv beta iota.
  rewrite trim_blank. destruct (blank text); [done|].
  unfold mbind at 1, M_bind, lift, parseYamlText. cbv beta iota.
  destruct (parseYaml text) as [parsed|[e|msg|msg]]; cbv beta iota; try done.
  - assert (Hroot :
      (push (length σ) root_finding;; mret (length σ)) (σ ++ [[]])
      = (Return (length σ), σ ++ [[root_finding]])).
    { unfold mbind, M_bind, push. cbv beta iota. by rewrite Hpush. }
    destruct parsed; try exact Hroot.
    all: cbn [typeof is_null isArray as_Record].
    all: change (negb (str_eq (js "object") (js "object")) || false || false)
           with false; cbv iota.
    all: rewrite validateConfig_run, length_app, Nat.add_1_r.
    all: by rewrite <-app_assoc.
  - unfold mbind, M_bind, push. cbv beta iota. rewrite Hpush.
    unfold syntax_finding, error_line.
    by destruct (YAML.linePos e) as [[pos ?]|].
Qed.

(* ------------------------------------------------------------------ *)
(** ** What a call returns *)

Lemma elements_last (σ : Store) ds : elements (σ ++ [ds]) (length σ) = Some ds.
Proof. unfold elements. by rewrite list_lookup_middle. Qed.

Lemma validateConfig_returns config text σ :
  returns (validateConfig config text) σ (findings config text).
Proof.
  exists (length σ), (σ ++ [findings config text]).
  split; [apply validateConfig_run | apply elements_last].
Qed.

Lemma returns_inj m σ ds ds' : returns m σ ds → returns m σ ds' → ds = ds'.
Proof.
  intros (a & σ1 & Hm & Hds) (a' & σ1' & Hm' & Hds'). congruence.
Qed.

(* ------------------------------------------------------------------ *)
(** ** Membership and filtering in the findings *)

Lemma has_lookup (key : jsstring) (o : Record_) :
  has key o = match o !! key with Some _ => true | None => false end.
Proof.
  unfold has. destruct (o !! key) eqn:Hk.
  - apply bool_decide_eq_true. eauto.
  - apply bool_decide_eq_false. by intros [? ?].
Qed.

Lemma mistyped_lookup (key type : jsstring) (o : Record_) :
  mistyped key type o
  = match o !! key with
    | Some v => negb (str_eq (typeof v) type)
    | None => false
    end.
Proof. unfold mistyped, get. rewrite has_lookup. by destruct (o !! key). Qed.

Lemma elem_of_when c d d' : d' ∈ when c d ↔ c = true ∧ d' = d.
Proof.
  destruct c; simpl.
  - rewrite list_elem_of_singleton. by split; [|intros [_ ?]].
  - rewrite elem_of_nil. by split; [|intros [? _]].
Qed.


Lemma findings_required config text :
  findings config text
  = when (negb (has (js "name") config))
      (createDiagnostic DiagnosticSeverity.Error 0 (msg_missing (js "name")))
    ++ when (negb (has (js "version") config))
         (createDiagnostic DiagnosticSeverity.Error 0 (msg_missing (js "version")))
    ++ later_findings config text.
Proof.
  unfold findings, REQUIRED_FIELDS. cbn [mbind list_bind].
  by rewrite app_nil_r, <-app_assoc.
Qed.

(** Picks the disjunct that holds syntactically. *)
Ltac one_of :=
  lazymatch goal with
  | |- ?x = ?x ∨ _ => left; reflexivity
  | |- _ ∨ _ => right; one_of
  | |- ?x = ?x => reflexivity
  end.

(** The findings after the required fields are of seven kinds, each with
    its severity, line and message. *)
Lemma elem_of_later_findings config text d :
  d ∈ later_findings config text →
  ∃ severity line message,
    d = createDiagnostic severity line message
    ∧ ((severity, line, message)
         = (DiagnosticSeverity.Error, line_of text (js "name"), msg_string (js "name"))
       ∨ (severity, line, message)
         = (DiagnosticSeverity.Error, line_of text (js "version"), msg_string (js "version"))
       ∨ (severity, line, message)
         = (DiagnosticSeverity.Warning, line_of text (js "enabled"), msg_enabled)
       ∨ (severity, line, message)
         = (DiagnosticSeverity.Error, line_of text (js "settings"), msg_settings)
       ∨ (severity, line, message)
         = (DiagnosticSeverity.Warning, line_of text (js "timeout"), msg_timeout)
       ∨ (severity, line, message)
         = (DiagnosticSeverity.Warning, line_of text (js "retries"), msg_retries_number)
       ∨ (severity, line, message)
         = (DiagnosticSeverity.Warning, line_of text (js "retries"), msg_retries_negative)).
Proof.
  unfold later_findings, settings_findings.
  rewrite !elem_of_app, !elem_of_when.
  intros [[_ ->]|[[_ ->]|[[_ ->]|Hd]]];
    try (do 3 eexists; split; [reflexivity|]; one_of).
  destruct (has (js "settings") config); [|by apply elem_of_nil in Hd].
  cbv zeta in Hd.
  destruct (negb _ || _).
  - apply list_elem_of_singleton in Hd as ->.
    do 3 eexists; split; [reflexivity|]; one_of.
  - rewrite !elem_of_app, !elem_of_when in Hd.
    destruct Hd as [[_ ->]|[[_ ->]|[_ ->]]];
      (do 3 eexists; split; [reflexivity|]; one_of).
Qed.

(** Every finding of [validateConfig] is made by [createDiagnostic] and
    is of one of the kinds. *)
Lemma elem_of_findings config text d :
  d ∈ findings config text →
  ∃ line, d = createDiagnostic (LSP.severity d) line (LSP.message d)
          ∧ (LSP.message d, LSP.severity d) ∈ KINDS.
Proof.
  rewrite findings_required, !elem_of_app, !elem_of_when.
  intros [[_ ->]|[[_ ->]|Hd]].
  - eexists. split; [reflexivity|]. apply list_elem_of_here.
  - eexists. split; [reflexivity|]. do 1 apply list_elem_of_further.
    apply list_elem_of_here.
  - apply elem_of_later_findings in Hd as (sev & line & msg & -> & Hkind).
    exists line. split; [reflexivity|]. cbn [LSP.message LSP.severity createDiagnostic].
    do 2 apply list_elem_of_further.
    repeat (destruct Hkind as [Hkind|Hkind];
            [injection Hkind as -> _ ->; repeat constructor|
             apply list_elem_of_further]).
    injection Hkind as -> _ ->. constructor.
Qed.

(* ================================================================== *)
(** * The properties of the specification *)

Lemma msg_missing_head field : ∃ tail, msg_missing field = 24517%N :: tail.
Proof.
  unfold msg_missing. set (prefix := js "必須フィールド ").
  vm_compute in prefix. subst prefix. eexists. reflexivity.
Qed.

Lemma later_findings_head config text d :
  d ∈ later_findings config text → ∃ tail, LSP.message d = dquote :: tail.
Proof.
  intros (sev & line & msg & -> & Hkind)%elem_of_later_findings.
  cbn [LSP.message createDiagnostic].
  repeat (destruct Hkind as [Hkind|Hkind];
          [injection Hkind as _ _ ->; eexists; reflexivity|]).
  injection Hkind as _ _ ->; eexists; reflexivity.
Qed.


(* ------------------------------------------------------------------ *)





(* ------------------------------------------------------------------ *)

(** C3.  For every text that is empty or made of white space only,
    [validateText] returns no finding at all, not even for the missing
    required fields. *)
Theorem validateText_blank (text : jsstring) (σ : Store) :
  Forall (fun c => isWhiteSpace c = true) text →
  returns (validateText text) σ [].
Proof.
  intros Hblank. exists (length σ), (σ ++ [[]]). split; [|apply elements_last].
  rewrite validateText_run.
  assert (blank text = true) as ->; [|done].
  apply forallb_forall. intros c Hc%list_elem_of_In.
  by apply (proj1 (Forall_forall _ _) Hblank).
Qed.

(** C4.  For every text that is not blank and on which the parser throws
    a [YAMLParseError], [validateText] returns exactly one finding: an
    error at the line before the reported one, or at line 0 when the
    error has no position, whose message is the syntax error prefix
    followed by the message of the parser.  No other check runs. *)
Theorem validateText_syntax_error (text : jsstring) (e : YAMLParseError) (σ : Store) :
  blank text = false →
  parseYaml text = Throw (ExnYAMLParseError e) →
  ∃ d,
    returns (validateText text) σ [d]
    ∧ LSP.severity d = DiagnosticSeverity.Error
    ∧ line_at d = match YAML.linePos e with
                  | Some (pos, _) => YAML.line pos - 1
                  | None => 0
                  end
    ∧ LSP.line (LSP.end_ (LSP.range d)) = line_at d
    ∧ LSP.message d = js "YAML構文エラー: " ++ YAML.message e.
Proof.
  intros Hblank Hparse. exists (syntax_finding e). split_and!; [|done..].
  eexists (length σ), _. split; [|apply elements_last].
  by rewrite validateText_run, Hblank, Hparse.
Qed.


(* ------------------------------------------------------------------ *)

(** C6, for keys free of pattern syntax.  For every text and every such
    key, [findLineForKey] returns the index, from 0, of the first line
    of the text that declares the key (optional white space, the key,
    optional white space, a colon) at any indentation, and 0 when no
    line does.  On the example document it returns 2 for [timeout], 3 for
    [retries] and 0 for a key that is not in the text. *)
Theorem findLineForKey_first_line :
  (∀ text key : jsstring,
      bare_word key →
      ∃ line, findLineForKey text key = Return line
              ∧ first_line (declares key) (split newline text) line)
  ∧ findLineForKey example_document (js "timeout") = Return 2
  ∧ findLineForKey example_document (js "retries") = Return 3
  ∧ findLineForKey example_document (js "nonexistent") = Return 0.
Proof.
  split_and!.
  - intros text key Hkey. exists (line_of text key).
    split; [by apply findLineForKey_bare | apply line_of_first].
  - rewrite findLineForKey_bare by bare. by vm_compute.
  - rewrite findLineForKey_bare by bare. by vm_compute.
  - rewrite findLineForKey_bare by bare. by vm_compute.
Qed.

(* ------------------------------------------------------------------ *)


Lemma get_lookup (key : jsstring) (o : Record_) v :
  o !! key = Some v → get key o = v.
Proof. unfold get. by intros ->. Qed.

Lemma settings_findings_object (config s : Record_) text :
  config !! js "settings" = Some (JsObject s) →
  settings_findings config text
  = when (mistyped (js "timeout") (js "number") s)
      (createDiagnostic DiagnosticSeverity.Warning
         (line_of text (js "timeout")) msg_timeout)
    ++ when (mistyped (js "retries") (js "number") s)
         (createDiagnostic DiagnosticSeverity.Warning
            (line_of text (js "retries")) msg_retries_number)
    ++ when (has (js "retries") s
             && str_eq (typeof (get (js "retries") s)) (js "number")
             && is_negative (get (js "retries") s))
         (createDiagnostic DiagnosticSeverity.Warning
            (line_of text (js "retries")) msg_retries_negative).
Proof.
  intros Hsettings. unfold settings_findings.
  by rewrite has_lookup, (get_lookup _ _ _ Hsettings), Hsettings.
Qed.



(* ------------------------------------------------------------------ *)

(** Settles a goal from an equation between two closed messages that
    differ. *)
Ltac differ H := exfalso; vm_compute in H; discriminate H.

Lemma KINDS_fit d :
  (LSP.message d, LSP.severity d) ∈ KINDS → severity_fits d.
Proof.
  unfold severity_fits.
  generalize (LSP.message d) (LSP.severity d). clear d.
  intros message severity Hkind. unfold KINDS in Hkind.
  repeat (apply elem_of_cons in Hkind as [Hkind|Hkind];
          [injection Hkind as -> ->|]);
    [..|by apply elem_of_nil in Hkind];
    (split_and!;
     [ intros (field & [->|[->|[]%elem_of_nil]%elem_of_cons]%elem_of_cons & [H|H]);
       first [reflexivity | differ H]
     | intros Hin;
       repeat (apply elem_of_cons in Hin as [H|Hin];
               [first [reflexivity | differ H]|]);
       by apply elem_of_nil in Hin
     | intros H; first [reflexivity | differ H] ]).
Qed.

(** A finding whose message starts like none of the messages of
    [KINDS] is about none of their subjects. *)
Lemma severity_fits_head d c tail :
  LSP.message d = c :: tail → c ≠ dquote → c ≠ 24517%N → severity_fits d.
Proof.
  intros Hd Hquote Hmissing. unfold severity_fits. rewrite Hd.
  assert (Hclosed : ∀ message tail',
    message = dquote :: tail' → c :: tail ≠ message).
  { intros ?? -> [= ? _]. done. }
  split_and!.
  - intros (field & _ & [H|H]); exfalso.
    + destruct (msg_missing_head field) as [tail' Hfield].
      rewrite Hfield in H. by injection H as ? _.
    + by apply (Hclosed _ _ eq_refl) in H.
  - intros Hin. exfalso.
    repeat (apply elem_of_cons in Hin as [H|Hin];
            [by apply (Hclosed _ _ eq_refl) in H|]).
    by apply elem_of_nil in Hin.
  - intros H. exfalso. by apply (Hclosed _ _ eq_refl) in H.
Qed.

(** What [validateText] does, case by case: it returns no finding, the
    finding of a syntax error, the finding of a root that is no object,
    or the findings of [validateConfig]; or it throws what the parser
    threw, when that is no [YAMLParseError]. *)
Lemma validateText_cases text σ :
  (∃ ds, returns (validateText text) σ ds
         ∧ (ds = []
            ∨ (∃ e, ds = [syntax_finding e])
            ∨ ds = [root_finding]
            ∨ ∃ props, ds = findings props text))
  ∨ (∃ e, (validateText text σ).1 = Throw e
          ∧ blank text = false
          ∧ parseYaml text = Throw e
          ∧ ∀ e', e ≠ ExnYAMLParseError e').
Proof.
  pose proof (validateText_run text σ) as Hrun.
  destruct (blank text).
  { left. exists []. split; [|by left].
    eexists _, _. split; [exact Hrun|apply elements_last]. }
  destruct (parseYaml text) as [parsed|[e|msg|msg]].
  - left.
    assert (Hroot :
      validateText text σ = (Return (length σ), σ ++ [[root_finding]]) →
      ∃ ds, returns (validateText text) σ ds
            ∧ (ds = [] ∨ (∃ e, ds = [syntax_finding e]) ∨ ds = [root_finding]
               ∨ ∃ props, ds = findings props text)).
    { intros Hrun'. exists [root_finding]. split; [|by right; right; left].
      eexists _, _. split; [exact Hrun'|apply elements_last]. }
    destruct parsed; try exact (Hroot Hrun).
    all: exists (findings props text); split; [|right; right; right; by eexists].
    all: eexists _, _; split; [exact Hrun|].
    all: change (σ ++ [[]; findings props text])
           with (σ ++ [[]] ++ [findings props text]).
    all: rewrite app_assoc, <-(Nat.add_1_r (length σ)).
    all: change 1%nat with (length [@nil Diagnostic]).
    all: rewrite <-length_app; apply elements_last.
  - left. exists [syntax_finding e]. split; [|right; left; by eexists].
    eexists _, _. split; [exact Hrun|apply elements_last].
  - right. exists (ExnSyntaxError msg). by rewrite Hrun.
  - right. exists (ExnOther msg). by rewrite Hrun.
Qed.

(** C8, as the code has it.  Every finding of [validateConfig] is of one
    of the nine kinds of [KINDS], and its severity fits what it is about:
    error for a required field that is missing or is not a string,
    warning for the values of [enabled], [settings.timeout] and
    [settings.retries], and error for a [settings] that is not an
    object.  The severity of every finding of [validateText] fits in the
    same way, whenever it returns (it throws only what the parser throws
    that is no [YAMLParseError]). *)
Theorem severities_fit :
  (∀ (config : Record_) (text : jsstring) (σ : Store), ∃ ds,
      returns (validateConfig config text) σ ds
      ∧ Forall (fun d => (LSP.message d, LSP.severity d) ∈ KINDS
                         ∧ severity_fits d) ds)
  ∧ (∀ (text : jsstring) (σ : Store),
      (∃ ds, returns (validateText text) σ ds ∧ Forall severity_fits ds)
      ∨ (∃ e, (validateText text σ).1 = Throw e
              ∧ blank text = false
              ∧ parseYaml text = Throw e
              ∧ ∀ e', e ≠ ExnYAMLParseError e')).
Proof.
  assert (Hconfig : ∀ config text,
    Forall (fun d => (LSP.message d, LSP.severity d) ∈ KINDS
                     ∧ severity_fits d) (findings config text)).
  { intros config text. apply Forall_forall.
    intros d (line & _ & Hkind)%elem_of_findings.
    split; [exact Hkind | by apply KINDS_fit]. }
  split.
  - intros config text σ. exists (findings config text).
    split; [apply validateConfig_returns | apply Hconfig].
  - intros text σ.
    destruct (validateText_cases text σ) as [(ds & Hds & Hcases)|Hthrow];
      [left|by right].
    exists ds. split; [exact Hds|].
    destruct Hcases as [->|[[e ->]|[->|[props ->]]]].
    + constructor.
    + repeat constructor.
      pose (prefix := js "YAML構文エラー: ").
      assert (Hmessage : LSP.message (syntax_finding e)
                         = prefix ++ YAML.message e) by reflexivity.
      vm_compute in prefix. by eapply severity_fits_head.
    + repeat constructor.
      pose (message := LSP.message root_finding).
      assert (Hmessage : LSP.message root_finding = message) by reflexivity.
      vm_compute in message. by eapply severity_fits_head.
    + eapply Forall_impl; [apply Hconfig|]. by intros d [_ ?].
Qed.

(* ------------------------------------------------------------------ *)

Lemma elements_second (σ : Store) ds ds' :
  elements (σ ++ [ds; ds']) (S (length σ)) = Some ds'.
Proof.
  change (σ ++ [ds; ds']) with (σ ++ [ds] ++ [ds']).
  rewrite app_assoc, <-(Nat.add_1_r (length σ)).
  change 1%nat with (length [ds]). rewrite <-length_app. apply elements_last.
Qed.

(** The result of [validateText] as a function of the text alone. *)
Lemma validateText_result text σ :
  result (validateText text) σ
  = if blank text then Return (Some [])
    else match parseYaml text with
         | Throw (ExnYAMLParseError e) => Return (Some [syntax_finding e])
         | Throw e => Throw e
         | Return (JsObject props) | Return (JsExotic _ props) =>
             Return (Some (findings props text))
         | Return _ => Return (Some [root_finding])
         end.
Proof.
  unfold result. rewrite validateText_run.
  destruct (blank text); [by rewrite elements_last|].
  destruct (parseYaml text) as [[]|[]];
    rewrite ?elements_last, ?elements_second; reflexivity.
Qed.

(** [validateText] only adds arrays to the store. *)
Lemma validateText_store text σ :
  ∃ new, (validateText text σ).2 = σ ++ new.
Proof.
  rewrite validateText_run.
  destruct (blank text); [by eexists|].
  destruct (parseYaml text) as [[]|[]]; by eexists.
Qed.

(** C9.  [validateText] is a function of the text: run in any two stores
    it has the same result (the same findings in the same order, or the
    same exception), and it leaves every array of the store it runs in as
    it was, the array it returns being a new one.  So of two calls in a
    row on one text the second returns the findings of the first, in
    another array, and leaves the array of the first as it was. *)
Theorem validateText_deterministic (text : jsstring) :
  (∀ σ1 σ2 : Store, result (validateText text) σ1 = result (validateText text) σ2)
  ∧ (∀ σ : Store, σ `prefix_of` (validateText text σ).2)
  ∧ (∀ (σ σ1 σ2 : Store) (array1 array2 : ref),
      validateText text σ = (Return array1, σ1) →
      validateText text σ1 = (Return array2, σ2) →
      (length σ ≤ array1 < length σ1)%nat
      ∧ (length σ1 ≤ array2)%nat
      ∧ elements σ2 array1 = elements σ1 array1
      ∧ elements σ2 array2 = elements σ1 array1).
Proof.
  split_and!.
  - intros σ1 σ2. by rewrite !validateText_result.
  - intros σ. destruct (validateText_store text σ) as [new ->].
    by apply prefix_app_r.
  - intros σ σ1 σ2 array1 array2 Hrun1 Hrun2.
    assert (Hfresh : ∀ σ σ' array,
      validateText text σ = (Return array, σ') →
      (length σ ≤ array < length σ')%nat).
    { clear. intros σ σ' array. rewrite validateText_run.
      destruct (blank text).
      { intros [= <- <-]. rewrite length_app. simpl. lia. }
      destruct (parseYaml text) as [[]|[]]; intros [= <- <-];
        rewrite length_app; simpl; lia. }
    pose proof (Hfresh _ _ _ Hrun1) as Hfresh1.
    pose proof (Hfresh _ _ _ Hrun2) as Hfresh2.
    split_and!; [lia..| |].
    + destruct (validateText_store text σ1) as [new Hnew].
      rewrite Hrun2 in Hnew. simpl in Hnew. subst σ2.
      unfold elements. apply lookup_app_l. lia.
    + pose proof (validateText_result text σ) as Hres1.
      pose proof (validateText_result text σ1) as Hres2.
      unfold result in Hres1, Hres2. rewrite Hrun1 in Hres1.
      rewrite Hrun2, <-Hres1 in Hres2. by injection Hres2.
Qed.

(* ------------------------------------------------------------------ *)

Lemma createDiagnostic_well_formed severity line message :
  well_formed (createDiagnostic severity line message).
Proof. by repeat split. Qed.

(** C10.  Every finding of [validateConfig] and of [validateText] has
    the source [myconfig-lsp] and a range on one line: it starts and
    ends on the same line, at characters 0 and 1000.  [validateConfig]
    always returns; [validateText] returns unless the parser throws
    something that is no [YAMLParseError] on a text that is not blank,
    which it throws on. *)
Theorem findings_well_formed :
  (∀ (config : Record_) (text : jsstring) (σ : Store), ∃ ds,
      returns (validateConfig config text) σ ds ∧ Forall well_formed ds)
  ∧ (∀ (text : jsstring) (σ : Store),
      (∃ ds, returns (validateText text) σ ds ∧ Forall well_formed ds)
      ∨ (∃ e, (validateText text σ).1 = Throw e
              ∧ blank text = false
              ∧ parseYaml text = Throw e
              ∧ ∀ e', e ≠ ExnYAMLParseError e')).
Proof.
  assert (Hconfig : ∀ config text, Forall well_formed (findings config text)).
  { intros config text. apply Forall_forall.
    intros d (line & -> & _)%elem_of_findings.
    apply createDiagnostic_well_formed. }
  split.
  - intros config text σ. exists (findings config text).
    split; [apply validateConfig_returns | apply Hconfig].
  - intros text σ.
    destruct (validateText_cases text σ) as [(ds & Hds & Hcases)|Hthrow];
      [left|by right].
    exists ds. split; [exact Hds|].
    destruct Hcases as [->|[[e ->]|[->|[props ->]]]];
      [constructor
      |repeat constructor; apply createDiagnostic_well_formed..
      |apply Hconfig].
Qed.

(* ------------------------------------------------------------------ *)
(** ** Cases after the tests of the repository (texts without quotes) *)

(** [findLineForKey]: keys at the root, and keys with various spacing. *)
Example test_findLineForKey_root :
  let text := js "name: test
version: 1.0.0
enabled: true" in
  findLineForKey text (js "name") = Return 0
  ∧ findLineForKey text (js "version") = Return 1
  ∧ findLineForKey text (js "enabled") = Return 2.
Proof. by vm_compute. Qed.

Example test_findLineForKey_spacing :
  let text := js "name: test
  version: 1.0.0
    enabled: true" in
  findLineForKey text (js "version") = Return 1
  ∧ findLineForKey text (js "enabled") = Return 2.
Proof. by vm_compute. Qed.

(** [validateConfig]: a mapping with only [version] misses [name]. *)
Example test_missing_name :
  result (validateConfig {[ js "version" := JsString (js "1.0.0") ]}
            (js "version: 1.0.0")) []
  = Return (Some [createDiagnostic DiagnosticSeverity.Error 0
                    (msg_missing (js "name"))]).
Proof. by vm_compute. Qed.

(** [validateConfig]: a number for [name] is an error at its line. *)
Example test_name_not_string :
  result (validateConfig
            (<[js "name" := JsNumber 123%float]>
               {[ js "version" := JsString (js "1.0.0") ]})
            (js "name: 123
version: 1.0.0")) []
  = Return (Some [createDiagnostic DiagnosticSeverity.Error 0
                    (msg_string (js "name"))]).
Proof. by vm_compute. Qed.

(** [validateConfig]: a string for [enabled] is one warning. *)
Example test_enabled_not_boolean :
  result (validateConfig
            (<[js "name" := JsString (js "test")]>
               (<[js "version" := JsString (js "1.0.0")]>
                  {[ js "enabled" := JsString (js "yes") ]}))
            (js "name: test
version: 1.0.0
enabled: yes")) []
  = Return (Some [createDiagnostic DiagnosticSeverity.Warning 2 msg_enabled]).
Proof. by vm_compute. Qed.

(** [validateConfig]: valid settings give no finding. *)
Example test_valid_settings :
  result (validateConfig
            (<[js "name" := JsString (js "test")]>
               (<[js "version" := JsString (js "1.0.0")]>
                  {[ js "settings" :=
                       JsObject (<[js "timeout" := JsNumber 30%float]>
                                   {[ js "retries" := JsNumber 3%float ]}) ]}))
            (js "name: test
version: 1.0.0
settings:
  timeout: 30
  retries: 3")) []
  = Return (Some []).
Proof. by vm_compute. Qed.

(** [validateConfig]: a negative [retries] is a warning at its line. *)
Example test_negative_retries :
  result (validateConfig negative_retries (js "name: test
version: 1.0.0
settings:
  retries: -1")) []
  = Return (Some [createDiagnostic DiagnosticSeverity.Warning 3
                    msg_retries_negative]).
Proof. by vm_compute. Qed.

(** [validateText]: a text read as a mapping with a string for
    [enabled] and for [settings.timeout], and neither [name] nor
    [version], has four findings. *)
Example test_multiple_errors :
  let text := js "enabled: yes
settings:
  timeout: 30s" in
  parseYaml text
  = Return (JsObject
              (<[js "enabled" := JsString (js "yes")]>
                 {[ js "settings" :=
                      JsObject {[ js "timeout" := JsString (js "30s") ]} ]})) →
  result (validateText text) []
  = Return (Some
      [createDiagnostic DiagnosticSeverity.Error 0 (msg_missing (js "name"));
       createDiagnostic DiagnosticSeverity.Error 0 (msg_missing (js "version"));
       createDiagnostic DiagnosticSeverity.Warning 0 msg_enabled;
       createDiagnostic DiagnosticSeverity.Warning 2 msg_timeout]).
Proof.
  intros text Hparse. rewrite validateText_result.
  change (blank text) with false. cbv iota. rewrite Hparse.
  by vm_compute.
Qed.

(* ================================================================== *)
(** * Further properties of the validator *)

Lemma when_nil c d : when c d = [] ↔ c = false.
Proof. by destruct c. Qed.

Lemma returns_findings config text σ ds :
  returns (validateConfig config text) σ ds ↔ ds = findings config text.
Proof.
  split.
  - intros Hds. apply (returns_inj _ _ _ _ Hds (validateConfig_returns _ _ _)).
  - intros ->. apply validateConfig_returns.
Qed.

Lemma str_eq_true a b : str_eq a b = true ↔ a = b.
Proof. apply bool_decide_eq_true. Qed.

Lemma str_eq_false a b : str_eq a b = false ↔ a ≠ b.
Proof. apply bool_decide_eq_false. Qed.

Lemma mistyped_false (key type : jsstring) (o : Record_) :
  mistyped key type o = false ↔ ∀ v, o !! key = Some v → typeof v = type.
Proof.
  rewrite mistyped_lookup. destruct (o !! key) as [v|].
  - rewrite negb_false_iff, str_eq_true. split; [by intros ? ? [= <-]|auto].
  - split; [by intros _ ? [=]|done].
Qed.

Lemma has_false (key : jsstring) (o : Record_) :
  has key o = false ↔ o !! key = None.
Proof. rewrite has_lookup. by destruct (o !! key). Qed.

Lemma settings_findings_nil config text :
  settings_findings config text = []
  ↔ ∀ v, config !! js "settings" = Some v → accepted_settings v.
Proof.
  unfold settings_findings. rewrite has_lookup.
  destruct (config !! js "settings") as [v|] eqn:Hsettings;
    [|by split; [intros _ ? [=]|]].
  rewrite (get_lookup _ _ _ Hsettings). cbv zeta.
  assert (Hobject : ∀ s : Record_,
    when (mistyped (js "timeout") (js "number") s)
      (createDiagnostic DiagnosticSeverity.Warning
         (line_of text (js "timeout")) msg_timeout)
    ++ when (mistyped (js "retries") (js "number") s)
         (createDiagnostic DiagnosticSeverity.Warning
            (line_of text (js "retries")) msg_retries_number)
    ++ when (has (js "retries") s
             && str_eq (typeof (get (js "retries") s)) (js "number")
             && is_negative (get (js "retries") s))
         (createDiagnostic DiagnosticSeverity.Warning
            (line_of text (js "retries")) msg_retries_negative) = []
    ↔ (∀ v, s !! js "timeout" = Some v → typeof v = js "number")
      ∧ (∀ v, s !! js "retries" = Some v →
              typeof v = js "number" ∧ is_negative v = false)).
  { intros s. rewrite !app_nil, !when_nil, !mistyped_false, has_lookup.
    destruct (s !! js "retries") as [r|] eqn:Hretries.
    - rewrite (get_lookup _ _ _ Hretries), andb_true_l. split.
      + intros (Ht & Hr & Hneg). split; [done|]. intros ? [= <-].
        specialize (Hr r eq_refl). split; [done|].
        by rewrite (proj2 (str_eq_true _ _) Hr) in Hneg.
      + intros (Ht & Hr). destruct (Hr r eq_refl) as [Hnum Hneg].
        split_and!; [done|by intros ? [= <-]|].
        by rewrite Hneg, andb_false_r.
    - split; [intros (Ht & _ & _)|intros (Ht & _)]; split_and!; done. }
  destruct v; cbn [typeof is_null as_Record accepted_settings].
  all: try (change (negb (str_eq _ (js "object")) || _) with true; cbv iota;
            split; [intros [=] | by intros H; destruct (H _ eq_refl)]).
  - change (negb (str_eq _ (js "object")) || _) with false. cbv iota.
    split; [by intros _ ? [= <-]|intros _].
    unfold mistyped, has, get. by rewrite !lookup_empty.
  - change (negb (str_eq _ (js "object")) || _) with false. cbv iota.
    rewrite Hobject. split; [by intros ? ? [= <-]|].
    intros H. apply (H _ eq_refl).
  - change (negb (str_eq _ (js "object")) || _) with false. cbv iota.
    rewrite Hobject. split; [by intros ? ? [= <-]|].
    intros H. apply (H _ eq_refl).
Qed.

(** X1.  [validateConfig] returns no finding exactly for the mappings
    that are [accepted]: [name] and [version] present and strings,
    [enabled] absent or a boolean, [settings] absent, an array, or an
    object whose [timeout] and [retries] are absent or numbers, [retries]
    not below 0. *)
Theorem validateConfig_nil_iff_accepted (config : Record_) (text : jsstring) (σ : Store) :
  returns (validateConfig config text) σ [] ↔ accepted config.
Proof.
  rewrite returns_findings, findings_required. unfold later_findings, accepted.
  split.
  - intros H. symmetry in H.
    rewrite !app_nil, !when_nil, !negb_false_iff, !mistyped_false,
      settings_findings_nil, !has_lookup in H.
    destruct H as (Hn & Hv & Hn' & Hv' & He & Hs).
    destruct (config !! js "name") as [n|]; [|done].
    destruct (config !! js "version") as [v|]; [|done].
    split_and!; eauto.
  - intros ((n & Hn & Hn') & (v & Hv & Hv') & He & Hs). symmetry.
    rewrite !app_nil, !when_nil, !negb_false_iff, !mistyped_false,
      settings_findings_nil, !has_lookup, Hn, Hv.
    split_and!; [done|done|by intros ? [= <-]|by intros ? [= <-]|done|done].
Qed.

(* ------------------------------------------------------------------ *)

Lemma length_when c d : length (when c d) = if c then 1%nat else 0%nat.
Proof. by destruct c. Qed.

Lemma fmap_when {B} (f : Diagnostic → B) c d :
  f <$> when c d = if c then [f d] else [].
Proof. by destruct c. Qed.

Lemma settings_findings_cases config text :
  settings_findings config text = []
  ∨ settings_findings config text
    = [createDiagnostic DiagnosticSeverity.Error
         (line_of text (js "settings")) msg_settings]
  ∨ ∃ s : Record_,
      settings_findings config text
      = when (mistyped (js "timeout") (js "number") s)
          (createDiagnostic DiagnosticSeverity.Warning
             (line_of text (js "timeout")) msg_timeout)
        ++ when (mistyped (js "retries") (js "number") s)
             (createDiagnostic DiagnosticSeverity.Warning
                (line_of text (js "retries")) msg_retries_number)
        ++ when (has (js "retries") s
                 && str_eq (typeof (get (js "retries") s)) (js "number")
                 && is_negative (get (js "retries") s))
             (createDiagnostic DiagnosticSeverity.Warning
                (line_of text (js "retries")) msg_retries_negative).
Proof.
  unfold settings_findings.
  destruct (has (js "settings") config); [|by left]. cbv zeta.
  destruct (negb _ || _); [by right; left|]. right; right. by eexists.
Qed.

(** X2.  The findings of [validateConfig] come in one fixed order of
    kinds (the order of [KINDS]), each kind at most once, and there are
    at most five of them: a field is never reported both missing and
    mistyped, and a [settings] that is no object is reported alone. *)
Theorem validateConfig_findings_ordered (config : Record_) (text : jsstring) (σ : Store) :
  ∃ ds,
    returns (validateConfig config text) σ ds
    ∧ sublist (LSP.message <$> ds) (KINDS.*1)
    ∧ (length ds ≤ 5)%nat.
Proof.
  exists (findings config text). split; [apply validateConfig_returns|].
  rewrite findings_required. unfold later_findings. split.
  - change (KINDS.*1)
      with ([msg_missing (js "name")] ++ [msg_missing (js "version")]
            ++ [msg_string (js "name")] ++ [msg_string (js "version")]
            ++ [msg_enabled]
            ++ ([msg_settings] ++ [msg_timeout] ++ [msg_retries_number]
                ++ [msg_retries_negative])).
    assert (Hwhen : ∀ c severity line message,
      sublist (LSP.message <$> when c (createDiagnostic severity line message))
        [message]).
    { intros [] ???; simpl; [done|apply sublist_nil_l]. }
    rewrite !fmap_app. repeat (apply sublist_app; [apply Hwhen|]).
    destruct (settings_findings_cases config text) as [->|[->|[s ->]]].
    + apply sublist_nil_l.
    + apply (sublist_inserts_r _ [msg_settings] [msg_settings]). done.
    + apply (sublist_inserts_l [msg_settings]).
      rewrite !fmap_app. repeat (apply sublist_app; [apply Hwhen|]).
      apply Hwhen.
  - assert (Hsettings : (length (settings_findings config text) ≤ 2)%nat).
    { destruct (settings_findings_cases config text) as [->|[->|[s ->]]];
        [simpl; lia..|].
      rewrite !length_app, !length_when. unfold mistyped.
      destruct (has (js "timeout") s), (has (js "retries") s),
        (str_eq (typeof (get (js "timeout") s)) (js "number")),
        (str_eq (typeof (get (js "retries") s)) (js "number")),
        (is_negative (get (js "retries") s)); simpl; lia. }
    rewrite !length_app, !length_when. unfold mistyped.
    destruct (has (js "name") config), (has (js "version") config),
      (str_eq (typeof (get (js "name") config)) (js "string")),
      (str_eq (typeof (get (js "version") config)) (js "string")),
      (has (js "enabled") config && _); simpl; lia.
Qed.

(** X3.  The text only places the findings: for one mapping and any two
    texts, [validateConfig] returns findings with the same severities,
    messages and sources, in the same order. *)
Theorem validateConfig_text_places
    (config : Record_) (text1 text2 : jsstring) (σ1 σ2 : Store) :
  ∃ ds1 ds2,
    returns (validateConfig config text1) σ1 ds1
    ∧ returns (validateConfig config text2) σ2 ds2
    ∧ (fun d => (LSP.severity d, LSP.message d, LSP.source d)) <$> ds1
      = (fun d => (LSP.severity d, LSP.message d, LSP.source d)) <$> ds2.
Proof.
  exists (findings config text1), (findings config text2).
  split; [apply validateConfig_returns|]. split; [apply validateConfig_returns|].
  rewrite !findings_required. unfold later_findings, settings_findings.
  destruct (has (js "settings") config); cbv zeta.
  - destruct (negb _ || _); by rewrite !fmap_app, !fmap_when.
  - by rewrite !fmap_app, !fmap_when.
Qed.

(* ------------------------------------------------------------------ *)

Lemma split_length (sep : codeunit) (s : jsstring) : (0 < length (split sep s))%nat.
Proof.
  induction s as [|c s IH]; simpl; [lia|].
  destruct (c =? sep)%N; [simpl; lia|].
  destruct (split sep s); simpl in *; lia.
Qed.

Lemma findLine_from_bound test lines i :
  findLine_from test lines i = 0
  ∨ i ≤ findLine_from test lines i < i + Z.of_nat (length lines).
Proof.
  revert i. induction lines as [|l lines IH]; intros i; simpl; [by left|].
  destruct (test l); [right; lia|].
  destruct (IH (i + 1)) as [?|?]; [by left|right; lia].
Qed.

Lemma findLine_from_in_text test text :
  0 ≤ findLine_from test (split newline text) 0
    < Z.of_nat (length (split newline text)).
Proof.
  pose proof (split_length newline text).
  destruct (findLine_from_bound test (split newline text) 0); lia.
Qed.

(** X4.  Whatever the key and whatever the regular expression engine
    makes of it, a line that [findLineForKey] returns is a line of the
    text: it is at least 0 and below the number of lines. *)
Theorem findLineForKey_in_text (text key : jsstring) (line : Z) :
  findLineForKey text key = Return line →
  0 ≤ line < Z.of_nat (length (split newline text)).
Proof.
  unfold findLineForKey. destruct (RegExp _) as [test|e]; [|done].
  intros [= <-]. apply findLine_from_in_text.
Qed.

(** X5.  Every finding of [validateConfig] is at a line of the text it
    was given: at least 0 and below the number of lines. *)
Theorem validateConfig_lines_in_text (config : Record_) (text : jsstring) (σ : Store) :
  ∃ ds,
    returns (validateConfig config text) σ ds
    ∧ Forall (fun d => 0 ≤ line_at d < Z.of_nat (length (split newline text))) ds.
Proof.
  exists (findings config text). split; [apply validateConfig_returns|].
  apply Forall_forall. intros d Hd.
  pose proof (split_length newline text) as Hlines.
  rewrite findings_required, !elem_of_app, !elem_of_when in Hd.
  destruct Hd as [[_ ->]|[[_ ->]|Hd]]; [unfold line_at; simpl; lia..|].
  apply elem_of_later_findings in Hd as (sev & line & msg & -> & Hkind).
  unfold line_at. cbn [createDiagnostic LSP.range LSP.start LSP.line].
  assert (Hline : ∃ key, line = line_of text key).
  { repeat (destruct Hkind as [Hkind|Hkind];
            [injection Hkind as _ -> _; by eexists|]).
    injection Hkind as _ -> _; by eexists. }
  destruct Hline as [key ->]. apply findLine_from_in_text.
Qed.

(* ------------------------------------------------------------------ *)

Lemma has_insert_ne (key key' : jsstring) (v : JsValue) (o : Record_) :
  key' ≠ key → has key (<[key' := v]> o) = has key o.
Proof. intros Hne. by rewrite !has_lookup, lookup_insert_ne. Qed.

Lemma get_insert_ne (key key' : jsstring) (v : JsValue) (o : Record_) :
  key' ≠ key → get key (<[key' := v]> o) = get key o.
Proof. intros Hne. unfold get. by rewrite lookup_insert_ne. Qed.

Lemma mistyped_insert_ne (key key' type : jsstring) (v : JsValue) (o : Record_) :
  key' ≠ key → mistyped key type (<[key' := v]> o) = mistyped key type o.
Proof.
  intros Hne. unfold mistyped. by rewrite has_insert_ne, get_insert_ne.
Qed.

(** X6.  The schema is open: a property that is none of [name],
    [version], [enabled] and [settings] changes nothing in what
    [validateConfig] returns, whatever its value; and neither does,
    inside a [settings] object, a property that is neither [timeout] nor
    [retries]. *)
Theorem validateConfig_ignores_unknown :
  (∀ (config : Record_) (key : jsstring) (v : JsValue) (text : jsstring) (σ : Store),
      key ∉ [js "name"; js "version"; js "enabled"; js "settings"] →
      ∃ ds, returns (validateConfig config text) σ ds
            ∧ returns (validateConfig (<[key := v]> config) text) σ ds)
  ∧ (∀ (config s : Record_) (key : jsstring) (v : JsValue) (text : jsstring) (σ : Store),
      config !! js "settings" = Some (JsObject s) →
      key ∉ [js "timeout"; js "retries"] →
      ∃ ds, returns (validateConfig config text) σ ds
            ∧ returns (validateConfig
                         (<[js "settings" := JsObject (<[key := v]> s)]> config)
                         text) σ ds).
Proof.
  split.
  - intros config key v text σ Hkey. exists (findings config text).
    split; [apply validateConfig_returns|]. apply returns_findings.
    rewrite !not_elem_of_cons in Hkey. destruct Hkey as (Hn & Hv & He & Hs & _).
    rewrite !findings_required. unfold later_findings, settings_findings.
    by rewrite !has_insert_ne, !mistyped_insert_ne, !get_insert_ne.
  - intros config s key v text σ Hsettings Hkey.
    exists (findings config text).
    split; [apply validateConfig_returns|]. apply returns_findings.
    rewrite !not_elem_of_cons in Hkey. destruct Hkey as (Ht & Hr & _).
    assert (Hn : js "settings" ≠ js "name") by (vm_compute; discriminate).
    assert (Hv : js "settings" ≠ js "version") by (vm_compute; discriminate).
    assert (He : js "settings" ≠ js "enabled") by (vm_compute; discriminate).
    rewrite !findings_required. unfold later_findings.
    rewrite !has_insert_ne, !mistyped_insert_ne by assumption.
    rewrite (settings_findings_object _ _ _ Hsettings).
    rewrite (settings_findings_object _ (<[key := v]> s))
      by apply lookup_insert_eq.
    by rewrite !has_insert_ne, !mistyped_insert_ne, !get_insert_ne.
Qed.


(* ------------------------------------------------------------------ *)

(** X8.  [validateText] throws exactly when the text is not blank and
    the parser throws something that is no [YAMLParseError], and then it
    throws just that: a [YAMLParseError] never escapes, and on a blank
    text whatever the parser would throw goes unseen. *)
Theorem validateText_throws_iff (text : jsstring) (σ : Store) (e : exn) :
  (validateText text σ).1 = Throw e
  ↔ blank text = false
    ∧ parseYaml text = Throw e
    ∧ ∀ e', e ≠ ExnYAMLParseError e'.
Proof.
  rewrite validateText_run. destruct (blank text).
  { split; [done|by intros [? _]]. }
  destruct (parseYaml text) as [[]|[e'|msg|msg]]; simpl.
  1-8: by split; [|intros (_ & ? & _)].
  - split; [done|]. intros (_ & [= <-] & Hne). by destruct (Hne e').
  - split; [by intros [= <-]|by intros (_ & [= <-] & _)].
  - split; [by intros [= <-]|by intros (_ & [= <-] & _)].
Qed.

(** X9.  For every text that is not blank and that the parser reads as a
    mapping, [validateText] returns what [validateConfig] returns for
    that mapping and the text, and nothing else. *)
Theorem validateText_mapping
    (text : jsstring) (props : Record_) (σ σ' : Store) :
  blank text = false →
  parseYaml text = Return (JsObject props) →
  ∃ ds,
    returns (validateText text) σ ds
    ∧ returns (validateConfig props text) σ' ds.
Proof.
  intros Hblank Hparse. exists (findings props text).
  split; [|apply validateConfig_returns].
  eexists _, _. split; [|apply elements_second].
  by rewrite validateText_run, Hblank, Hparse.
Qed.

(** X17.  An object that is no mapping is validated as one.  For every
    text that is not blank and that the parser reads as an object that
    is neither an array nor a plain object (a [Uint8Array], a [Date], a
    [Map] or a [Set]), [validateText] returns what [validateConfig]
    returns for the own properties of that object and the text, and no
    finding about the root. *)
Theorem validateText_object_root
    (text : jsstring) (class : Class) (props : Record_) (σ σ' : Store) :
  blank text = false →
  parseYaml text = Return (JsExotic class props) →
  ∃ ds,
    returns (validateText text) σ ds
    ∧ returns (validateConfig props text) σ' ds
    ∧ Forall (fun d => LSP.message d
                       ≠ js "ルート要素はオブジェクトである必要があります") ds.
Proof.
  intros Hblank Hparse. exists (findings props text).
  split_and!; [|apply validateConfig_returns|].
  - eexists _, _. split; [|apply elements_second].
    by rewrite validateText_run, Hblank, Hparse.
  - apply Forall_forall. intros d Hd Hmessage.
    assert (Hhead : ∃ c tail,
      LSP.message d = c :: tail ∧ (c = 24517%N ∨ c = dquote)).
    { rewrite findings_required, !elem_of_app, !elem_of_when in Hd.
      destruct Hd as [[_ ->]|[[_ ->]|Hd]].
      - destruct (msg_missing_head (js "name")) as [tail Htail].
        exists 24517%N, tail. by split; [|left].
      - destruct (msg_missing_head (js "version")) as [tail Htail].
        exists 24517%N, tail. by split; [|left].
      - destruct (later_findings_head _ _ _ Hd) as [tail Htail].
        exists dquote, tail. by split; [|right]. }
    destruct Hhead as (c & tail & Htail & Hc).
    rewrite Hmessage in Htail. vm_compute in Htail.
    injection Htail as <- _. by destruct Hc.
Qed.

(* ------------------------------------------------------------------ *)

(** The lines of two texts joined by a line end are the lines of the
    first, then the lines of the second. *)
Lemma split_app (sep : codeunit) (a b : jsstring) :
  split sep (a ++ sep :: b) = split sep a ++ split sep b.
Proof.
  induction a as [|c a IH]; simpl.
  - by rewrite N.eqb_refl.
  - destruct (c =? sep)%N; [by rewrite IH|].
    rewrite IH. pose proof (split_length sep a).
    by destruct (split sep a); [simpl in *; lia|].
Qed.

Lemma findLine_from_app test lines1 lines2 i :
  findLine_from test (lines1 ++ lines2) i
  = if existsb test lines1 then findLine_from test lines1 i
    else findLine_from test lines2 (i + Z.of_nat (length lines1)).
Proof.
  revert i. induction lines1 as [|l lines1 IH]; intros i; simpl.
  - by rewrite Z.add_0_r.
  - destruct (test l); [done|]. simpl. rewrite IH.
    destruct (existsb test lines1); [done|]. f_equal. lia.
Qed.

Lemma findLine_from_shift test lines i :
  findLine_from test lines i
  = if existsb test lines then i + findLine_from test lines 0 else 0.
Proof.
  revert i. induction lines as [|l lines IH]; intros i; simpl; [done|].
  destruct (test l); simpl; [lia|].
  rewrite (IH (i + 1)), (IH (0 + 1)).
  destruct (existsb test lines); lia.
Qed.

Lemma existsb_declares key lines :
  existsb (regex_test (key_regex key)) lines = true
  ↔ ∃ l, l ∈ lines ∧ declares key l.
Proof.
  rewrite existsb_exists. setoid_rewrite regex_test_key.
  by setoid_rewrite list_elem_of_In.
Qed.

(** X10.  How [findLineForKey] goes through a text made of two texts
    joined by a line end, for a key free of pattern syntax: when a line
    of the first text declares the key, the answer is that of the first
    text alone; when none does and a line of the second does, it is the
    answer for the second text plus the number of lines of the first;
    when no line does, it is 0. *)
Theorem findLineForKey_app (key a b : jsstring) :
  bare_word key →
  ∃ line_a line_b line_ab,
    findLineForKey a key = Return line_a
    ∧ findLineForKey b key = Return line_b
    ∧ findLineForKey (a ++ newline :: b) key = Return line_ab
    ∧ ((∃ l, l ∈ split newline a ∧ declares key l) → line_ab = line_a)
    ∧ ((∀ l, l ∈ split newline a → ¬ declares key l) →
       (∃ l, l ∈ split newline b ∧ declares key l) →
       line_ab = Z.of_nat (length (split newline a)) + line_b)
    ∧ ((∀ l, l ∈ split newline a → ¬ declares key l) →
       (∀ l, l ∈ split newline b → ¬ declares key l) →
       line_ab = 0).
Proof.
  intros Hkey.
  exists (line_of a key), (line_of b key), (line_of (a ++ newline :: b) key).
  rewrite !findLineForKey_bare by done. split_and!; [done..| | |].
  - intros Ha%existsb_declares. unfold line_of.
    by rewrite split_app, findLine_from_app, Ha.
  - intros Ha Hb%existsb_declares. unfold line_of.
    rewrite split_app, findLine_from_app.
    destruct (existsb _ (split newline a)) eqn:Hex.
    { apply existsb_declares in Hex as (l & Hl & Hdecl). by destruct (Ha l). }
    by rewrite findLine_from_shift, Hb.
  - intros Ha Hb. unfold line_of.
    rewrite split_app, findLine_from_app.
    destruct (existsb _ (split newline a)) eqn:Hex.
    { apply existsb_declares in Hex as (l & Hl & Hdecl). by destruct (Ha l). }
    rewrite findLine_from_shift.
    destruct (existsb _ (split newline b)) eqn:Hex'; [|done].
    apply existsb_declares in Hex' as (l & Hl & Hdecl). by destruct (Hb l).
Qed.

(* ================================================================== *)
(** * Properties of the server's handlers *)

(** ** The patterns of the handlers *)

Lemma span_app class (p r : jsstring) :
  forallb class p = true →
  match r with c :: _ => class c = false | [] => True end →
  span class (p ++ r) = (p, r).
Proof.
  intros Hp Hr. induction p as [|c p IH]; simpl.
  - destruct r as [|c r]; simpl; [done|]. by rewrite Hr.
  - apply andb_prop in Hp as [Hc Hp]. by rewrite Hc, IH.
Qed.

Lemma span_spec class (s : jsstring) :
  ∃ p r, span class s = (p, r) ∧ s = p ++ r ∧ forallb class p = true
         ∧ match r with c :: _ => class c = false | [] => True end.
Proof.
  induction s as [|c s (p & r & Hspan & -> & Hp & Hr)]; simpl.
  - by exists [], [].
  - destruct (class c) eqn:Hc.
    + rewrite Hspan. exists (c :: p), r. simpl. by rewrite Hc, Hp.
    + exists [], (c :: p ++ r). by rewrite Hc.
Qed.

Lemma white_not_word c : isWhiteSpace c = true → isWordChar c = false.
Proof.
  unfold isWhiteSpace, isWordChar. intros H.
  apply not_true_is_false. intros H'. revert H H'.
  rewrite !orb_true_iff, !andb_true_iff, !N.leb_le, !N.eqb_eq. lia.
Qed.

Lemma word_not_white c : isWordChar c = true → isWhiteSpace c = false.
Proof.
  intros H. destruct (isWhiteSpace c) eqn:Hw; [|done].
  by rewrite (white_not_word c Hw) in H.
Qed.

(** The key that the pattern of [onHover] takes from a line is a word
    that the line declares. *)
Lemma match_key_sound (line key : jsstring) :
  match_key line = Some key → word key ∧ declares key line.
Proof.
  unfold match_key, word, declares.
  destruct (span_spec isWhiteSpace line) as (ws1 & s1 & -> & -> & Hws1 & _).
  destruct (span_spec isWordChar s1) as (k & s2 & -> & -> & Hk & _).
  destruct (span_spec isWhiteSpace s2) as (ws2 & s3 & -> & -> & Hws2 & _).
  destruct k as [|c k]; [done|]. destruct s3 as [|c3 s3]; [done|].
  destruct (N.eqb_spec c3 colon) as [->|]; [|done]. intros [= <-].
  split; [done|]. by exists ws1, ws2, s3.
Qed.

(** The pattern of [onHover] takes every word that the line declares. *)
Lemma match_key_complete (line key : jsstring) :
  word key → declares key line → match_key line = Some key.
Proof.
  unfold match_key, word, declares.
  intros [Hne Hword] (ws1 & ws2 & rest & -> & Hws1 & Hws2).
  destruct key as [|c key]; [done|].
  apply andb_prop in Hword as Hc. destruct Hc as [Hc _].
  rewrite (span_app isWhiteSpace ws1) by (by try apply word_not_white).
  assert (Hafter : match ws2 ++ colon :: rest with
                   | c' :: _ => isWordChar c' = false
                   | [] => True
                   end).
  { destruct ws2 as [|w ws2]; [done|].
    apply andb_prop in Hws2 as [Hw _]. by apply white_not_word. }
  rewrite (span_app isWordChar (c :: key)) by done.
  rewrite (span_app isWhiteSpace ws2) by done.
  done.
Qed.

(** X11.  The key [onHover] takes from a line: its pattern takes [key]
    exactly when [key] is a word (one or more letters, digits and low
    lines) that the line declares, in the sense of [findLineForKey]:
    white space, the key, white space, a colon.  So a line has at most
    one such key, and a line that [findLineForKey] finds for a word is a
    line from which [onHover] takes that word. *)
Theorem match_key_declares (line key : jsstring) :
  match_key line = Some key ↔ word key ∧ declares key line.
Proof.
  split.
  - apply match_key_sound.
  - intros [Hword Hdecl]. by apply match_key_complete.
Qed.

(* ------------------------------------------------------------------ *)
(** ** Hovers *)

Lemma word_bare key : word key → bare_word key.
Proof.
  intros [_ Hword]. apply Forall_forall. intros c Hc%list_elem_of_In.
  rewrite forallb_forall in Hword. specialize (Hword c Hc).
  unfold isSyntaxCharacter. apply bool_decide_eq_false. intros Hsyntax.
  revert Hword. unfold isWordChar.
  rewrite !orb_true_iff, !andb_true_iff, !N.leb_le, !N.eqb_eq.
  repeat (apply elem_of_cons in Hsyntax as [->|Hsyntax]; [lia|]).
  by apply elem_of_nil in Hsyntax.
Qed.

(** The keys of [FIELD_DOCS] are words, and none is a member of
    [Object.prototype]. *)
Lemma FIELD_DOCS_word key doc :
  assoc key FIELD_DOCS = Some doc → word key ∧ FIELD_DOCS_at key = Entry doc.
Proof.
  intros Hdoc. split; [|unfold FIELD_DOCS_at; by rewrite Hdoc].
  revert Hdoc. unfold FIELD_DOCS. cbn [assoc].
  repeat (destruct (str_eq _ key) eqn:Hkey;
          [apply str_eq_true in Hkey as <-; intros _;
           split; [intros H; vm_compute in H; discriminate H
                  |vm_compute; reflexivity]
          |clear Hkey]).
  done.
Qed.

Lemma declares_not_empty key line : declares key line → line ≠ [].
Proof.
  intros (ws1 & ws2 & rest & -> & _) H.
  apply (f_equal length) in H. rewrite !length_app in H. simpl in H. lia.
Qed.

Lemma join_three (sep a b c : jsstring) :
  join sep [a; b; c] = a ++ sep ++ b ++ sep ++ c.
Proof. reflexivity. Qed.

(** What [onHover] answers on a line from which it takes [key]. *)
Lemma onHover_key (documents : TextDocuments) params text line key :
  documents !! uri params = Some text →
  line_of_position text (position params) = Some line →
  match_key line = Some key →
  onHover documents params
  = match FIELD_DOCS_at key with
    | Entry doc =>
        Some (hover_text key (FieldDoc.type doc) (FieldDoc.required doc)
                (FieldDoc.description doc))
    | Inherited => Some (hover_text key (js "undefined") false [])
    | NoDoc => None
    end.
Proof.
  unfold onHover, line_of_position. intros -> -> Hkey.
  assert (Hline : line ≠ []).
  { apply match_key_sound in Hkey as [_ Hdecl].
    by eapply declares_not_empty. }
  destruct line as [|c line]; [done|]. rewrite Hkey.
  unfold hover_text. destruct (FIELD_DOCS_at key) as [doc| |]; [| |done].
  - rewrite join_three. do 3 f_equal. cbn [app MarkupKind.Markdown].
    by rewrite <-!app_assoc.
  - rewrite join_three. do 3 f_equal. cbn [app MarkupKind.Markdown].
    by rewrite <-!app_assoc.
Qed.

(** X12.  The line of a finding can be hovered: for every document whose
    text has a line that declares a key of [FIELD_DOCS], hovering on the
    line that [findLineForKey] returns for that key shows the key with
    its documented type, its required mark and its description. *)
Theorem onHover_at_found_line
    (documents : TextDocuments) (u text key : jsstring) (doc : FieldDoc.t)
    (character : Z) :
  documents !! u = Some text →
  assoc key FIELD_DOCS = Some doc →
  (∃ l, l ∈ split newline text ∧ declares key l) →
  ∃ line,
    findLineForKey text key = Return line
    ∧ onHover documents
        {| uri := u;
           position := {| LSP.line := line; LSP.character := character |} |}
      = Some (hover_text key (FieldDoc.type doc) (FieldDoc.required doc)
                (FieldDoc.description doc)).
Proof.
  intros Hdocument Hdoc (l & Hl & Hdecl).
  destruct (FIELD_DOCS_word key doc Hdoc) as [Hword Hat].
  exists (line_of text key).
  split; [by apply findLineForKey_bare, word_bare|].
  destruct (line_of_first text key)
    as [(n & l0 & Hn & Hl0 & _ & Hline)|[Hnone _]];
    [|by destruct (Hnone l Hl)].
  rewrite (onHover_key documents _ text l0 key), Hat; [done|done| |].
  - unfold line_of_position, at_index. cbn [position LSP.line].
    rewrite Hline. destruct (Z.ltb_spec (Z.of_nat n) 0); [lia|].
    by rewrite Nat2Z.id.
  - by apply match_key_complete; [apply Hword|].
Qed.

(** X13.  When [onHover] answers: exactly on a line of a managed
    document from which it takes a word that the line declares, and
    that is a key of [FIELD_DOCS] (the answer shows its type, required
    mark and description) or the name of a member of [Object.prototype],
    which [FIELD_DOCS] inherits (the answer then shows it as optional,
    of type [undefined], with no description).  In every other case the
    answer is [null]. *)
Theorem onHover_answers
    (documents : TextDocuments) (params : TextDocumentPositionParams)
    (hover : Hover.t) :
  onHover documents params = Some hover
  ↔ ∃ text line key,
      documents !! uri params = Some text
      ∧ line_of_position text (position params) = Some line
      ∧ word key ∧ declares key line
      ∧ ((∃ doc, assoc key FIELD_DOCS = Some doc
                 ∧ hover = hover_text key (FieldDoc.type doc)
                             (FieldDoc.required doc) (FieldDoc.description doc))
         ∨ (assoc key FIELD_DOCS = None ∧ key ∈ Object_prototype
            ∧ hover = hover_text key (js "undefined") false [])).
Proof.
  assert (Hat : ∀ key,
    FIELD_DOCS_at key
    = match assoc key FIELD_DOCS with
      | Some doc => Entry doc
      | None => if bool_decide (key ∈ Object_prototype) then Inherited else NoDoc
      end) by done.
  split.
  - destruct (documents !! uri params) as [text|] eqn:Hdocument;
      [|by unfold onHover; rewrite Hdocument].
    destruct (line_of_position text (position params)) as [line|] eqn:Hline;
      [|by unfold onHover, line_of_position in *; rewrite Hdocument, Hline].
    destruct (match_key line) as [key|] eqn:Hkey.
    + rewrite (onHover_key documents params text line key) by done.
      apply match_key_sound in Hkey as [Hword Hdecl].
      rewrite Hat. destruct (assoc key FIELD_DOCS) as [doc|] eqn:Hdoc.
      * intros [= <-]. exists text, line, key. split_and!; [done..|].
        left. by exists doc.
      * destruct (bool_decide (key ∈ Object_prototype)) eqn:Hproto; [|done].
        apply bool_decide_eq_true in Hproto.
        intros [= <-]. exists text, line, key. split_and!; [done..|].
        by right.
    + unfold onHover, line_of_position in *. rewrite Hdocument, Hline, Hkey.
      by destruct line.
  - intros (text & line & key & Hdocument & Hline & Hword & Hdecl & Hdoc).
    rewrite (onHover_key documents params text line key), Hat;
      [|done|done|by apply match_key_complete].
    destruct Hdoc as [(doc & -> & ->)|(-> & Hproto & ->)]; [done|].
    by rewrite (bool_decide_eq_true_2 _ Hproto).
Qed.

(* ------------------------------------------------------------------ *)
(** ** Completions *)

Lemma match_indent_two (s : jsstring) :
  (2 <=? Z.of_nat (length (match_indent s)))
  = match s with
    | c1 :: c2 :: _ => isWhiteSpace c1 && isWhiteSpace c2
    | _ => false
    end.
Proof.
  unfold match_indent. destruct s as [|c1 [|c2 s]]; simpl; [done| |].
  - by destruct (isWhiteSpace c1).
  - destruct (isWhiteSpace c1); [|done].
    destruct (isWhiteSpace c2); [|done].
    destruct (span isWhiteSpace s). simpl. apply Z.leb_le. lia.
Qed.

(** X14.  What [onCompletion] offers depends on the first two code units
    of the line at the position only: nothing for a document the server
    does not manage; the fields of [settings] when the line starts with
    two white space code units; the top-level fields otherwise, also for
    an empty or one-character line and for a position outside the
    text. *)
Theorem onCompletion_by_indent
    (documents : TextDocuments) (params : TextDocumentPositionParams) :
  onCompletion documents params
  = match documents !! uri params with
    | None => []
    | Some text =>
        match line_of_position text (position params) with
        | Some (c1 :: c2 :: _) =>
            if isWhiteSpace c1 && isWhiteSpace c2 then nested_completions
            else top_completions
        | _ => top_completions
        end
    end.
Proof.
  unfold onCompletion, line_of_position.
  destruct (documents !! uri params) as [text|]; [|done]. cbv zeta.
  rewrite match_indent_two.
  by destruct (at_index _ _) as [[|c1 [|c2 line]]|].
Qed.

(** X15.  Every completion that [onCompletion] offers, for any document
    and position, is documented and can be inserted: its label is a key
    of [FIELD_DOCS] whose description is the documentation of the item,
    and the first line of its insert text declares the label, so that
    [findLineForKey] finds it and [onHover] takes the label from it. *)
Theorem completions_documented
    (documents : TextDocuments) (params : TextDocumentPositionParams)
    (item : CompletionItem.t) :
  item ∈ onCompletion documents params →
  ∃ doc first rest,
    assoc (CompletionItem.label item) FIELD_DOCS = Some doc
    ∧ CompletionItem.documentation item = FieldDoc.description doc
    ∧ split newline (CompletionItem.insertText item) = first :: rest
    ∧ declares (CompletionItem.label item) first
    ∧ match_key first = Some (CompletionItem.label item).
Proof.
  intros Hitem.
  assert (Hone : item ∈ nested_completions ++ top_completions).
  { unfold onCompletion in Hitem. apply elem_of_app.
    destruct (documents !! uri params) as [text|];
      [|by apply elem_of_nil in Hitem].
    cbv zeta in Hitem. destruct (2 <=? _); auto. }
  clear Hitem. unfold nested_completions, top_completions in Hone.
  cbn [app] in Hone.
  assert (Hkey : ∀ doc first rest,
    assoc (CompletionItem.label item) FIELD_DOCS = Some doc →
    CompletionItem.documentation item = FieldDoc.description doc →
    split newline (CompletionItem.insertText item) = first :: rest →
    match_key first = Some (CompletionItem.label item) →
    ∃ doc first rest,
      assoc (CompletionItem.label item) FIELD_DOCS = Some doc
      ∧ CompletionItem.documentation item = FieldDoc.description doc
      ∧ split newline (CompletionItem.insertText item) = first :: rest
      ∧ declares (CompletionItem.label item) first
      ∧ match_key first = Some (CompletionItem.label item)).
  { intros doc first rest ??? Hmatch. exists doc, first, rest.
    split_and!; [done..| |done]. by apply match_key_sound in Hmatch as [_ ?]. }
  repeat (apply elem_of_cons in Hone as [->|Hone];
          [eapply Hkey; vm_compute; reflexivity|]).
  by apply elem_of_nil in Hone.
Qed.

(* ------------------------------------------------------------------ *)
(** ** The documentation and the validator *)

(** X16.  [validateConfig] reports a field of [FIELD_DOCS] as missing
    exactly when [FIELD_DOCS] marks it required and the mapping does not
    have it: what hovers show as required is what the validator
    requires. *)
Theorem missing_iff_required (config : Record_) (text : jsstring) (σ : Store) :
  ∃ ds,
    returns (validateConfig config text) σ ds
    ∧ ∀ key doc,
        assoc key FIELD_DOCS = Some doc →
        ((∃ d, d ∈ ds ∧ LSP.message d = msg_missing key)
         ↔ FieldDoc.required doc = true ∧ config !! key = None).
Proof.
  exists (findings config text). split; [apply validateConfig_returns|].
  intros key doc Hdoc.
  assert (Hmissing : (∃ d, d ∈ findings config text
                           ∧ LSP.message d = msg_missing key)
    ↔ (config !! js "name" = None ∧ msg_missing (js "name") = msg_missing key)
      ∨ (config !! js "version" = None
         ∧ msg_missing (js "version") = msg_missing key)).
  { rewrite findings_required. split.
    - intros (d & Hd & Hmessage).
      rewrite !elem_of_app, !elem_of_when, !negb_true_iff, !has_false in Hd.
      destruct Hd as [[Hnone ->]|[[Hnone ->]|Hd]]; [by left|by right|].
      apply later_findings_head in Hd as [tail Hd].
      destruct (msg_missing_head key) as [tail' Hkey].
      rewrite Hd, Hkey in Hmessage. discriminate Hmessage.
    - intros [[Hnone Hmessage]|[Hnone Hmessage]].
      + exists (createDiagnostic DiagnosticSeverity.Error 0 (msg_missing (js "name"))).
        split; [|exact Hmessage].
        rewrite !elem_of_app, !elem_of_when, !negb_true_iff, !has_false; auto.
      + exists (createDiagnostic DiagnosticSeverity.Error 0
                  (msg_missing (js "version"))).
        split; [|exact Hmessage].
        rewrite !elem_of_app, !elem_of_when, !negb_true_iff, !has_false; auto. }
  rewrite Hmissing. clear Hmissing. revert Hdoc. unfold FIELD_DOCS. cbn [assoc].
  assert (Hinj : ∀ a b, msg_missing a = msg_missing b → a = b).
  { unfold msg_missing, quoted. intros a b H.
    apply app_inv_head in H. injection H as H.
    apply app_inv_tail in H. by apply app_inv_tail in H. }
  repeat (destruct (str_eq _ key) eqn:Hkey;
          [apply str_eq_true in Hkey as <-; intros [= <-];
           cbn [FieldDoc.required];
           split;
           [intros [[? H%Hinj]|[? H%Hinj]];
            first [done | exfalso; vm_compute in H; discriminate H]
           |intros [Hreq Hnone]; first [discriminate Hreq | auto]]
          |clear Hkey]).
  done.
Qed.

End Host.

(* ================================================================== *)
(** * The properties on concrete inputs *)

(** C3 on a text of spaces and line ends. *)
Lemma validateText_blank_witness :
  Forall (fun c => isWhiteSpace c = true) (js "   

   ")
  ∧ returns (validateText parse_fails no_engine (js "   

   ")) [] [].
Proof.
  assert (H : Forall (fun c => isWhiteSpace c = true) (js "   

   ")).
  { vm_compute. repeat constructor. }
  exact (conj H (validateText_blank parse_fails no_engine _ [] H)).
Defined.

(** C4 on a text with an unclosed flow sequence on its second line, and
    a parser that reports a syntax error on that line. *)
Lemma validateText_syntax_error_witness :
  ∃ d,
    returns (validateText parse_fails no_engine (js "name: test
  invalid: [unclosed")) [] [d]
    ∧ LSP.severity d = DiagnosticSeverity.Error
    ∧ line_at d = 1
    ∧ LSP.line (LSP.end_ (LSP.range d)) = line_at d
    ∧ LSP.message d = js "YAML構文エラー: " ++ YAML.message unclosed.
Proof.
  apply (validateText_syntax_error parse_fails no_engine
           (js "name: test
  invalid: [unclosed") unclosed []); reflexivity.
Defined.



(** C6 on the example document and the key [retries]. *)
Lemma findLineForKey_first_line_witness :
  bare_word (js "retries")
  ∧ ∃ line, findLineForKey no_engine example_document (js "retries") = Return line
            ∧ first_line (declares (js "retries"))
                (split newline example_document) line.
Proof.
  assert (H : bare_word (js "retries")).
  { apply bare_word_forallb. reflexivity. }
  exact (conj H (proj1 (findLineForKey_first_line no_engine)
                   example_document (js "retries") H)).
Defined.

(** C6 as stated fails on a key with pattern syntax: in the pattern the
    dot of [a.c] stands for any character, so the line [abc: 1] is taken
    for a declaration of [a.c].  [findLineForKey] returns 0, and the
    first line that declares [a.c] is line 1. *)
Lemma findLineForKey_dot_key :
  findLineForKey no_engine (js "abc: 1
a.c: 2") (js "a.c") = Return 0
  ∧ ¬ first_line (declares (js "a.c")) (split newline (js "abc: 1
a.c: 2")) 0
  ∧ first_line (declares (js "a.c")) (split newline (js "abc: 1
a.c: 2")) 1.
Proof.
  assert (Hline0 : ¬ declares (js "a.c") (js "abc: 1")).
  { intros H%regex_test_key. vm_compute in H. discriminate H. }
  assert (Hline1 : declares (js "a.c") (js "a.c: 2")).
  { apply regex_test_key. vm_compute. reflexivity. }
  change (split newline (js "abc: 1
a.c: 2")) with [js "abc: 1"; js "a.c: 2"].
  split_and!.
  - vm_compute. reflexivity.
  - intros [(n & l & Hn & Hl & _ & Hzero)|[Hnone _]].
    + destruct n as [|n]; [|lia]. injection Hn as <-. by apply Hline0.
    + apply (Hnone (js "a.c: 2")); [|exact Hline1].
      apply list_elem_of_further, list_elem_of_here.
  - left. exists 1%nat, (js "a.c: 2"). split_and!; [done|exact Hline1| |done].
    intros [|m] l' Hm Hl'; [|lia]. injection Hl' as <-. exact Hline0.
Qed.


(** C8 as stated fails on a [settings] that is not an object: the
    finding about it is an error, not a warning. *)
Lemma settings_not_object_is_error :
  ∃ d, returns (validateConfig no_engine settings_invalid (js "name: test
version: 1.0.0
settings: invalid")) [] [d]
       ∧ LSP.message d = quoted (js "settings") ++ js " はオブジェクトである必要があります"
       ∧ includes (LSP.message d) (js "settings") = true
       ∧ LSP.severity d = DiagnosticSeverity.Error
       ∧ LSP.severity d ≠ DiagnosticSeverity.Warning.
Proof.
  eexists. split_and!.
  - eexists _, _. split; [apply validateConfig_run|].
    vm_compute. reflexivity.
  - vm_compute. reflexivity.
  - vm_compute. reflexivity.
  - reflexivity.
  - discriminate.
Qed.

(* ================================================================== *)
(** * The further properties on concrete inputs *)

(** X4 on the example document and the key [timeout]. *)
Lemma findLineForKey_in_text_witness :
  findLineForKey no_engine example_document (js "timeout") = Return 2
  ∧ 0 ≤ 2 < Z.of_nat (length (split newline example_document)).
Proof.
  assert (H : findLineForKey no_engine example_document (js "timeout") = Return 2).
  { vm_compute. reflexivity. }
  exact (conj H (findLineForKey_in_text no_engine example_document
                   (js "timeout") 2 H)).
Defined.


(** X9 on a text read as the mapping [negative_retries]. *)
Lemma validateText_mapping_witness :
  ∃ ds,
    returns (validateText parse_as_mapping no_engine (js "name: test
version: 1.0.0
settings:
  retries: -1")) [] ds
    ∧ returns (validateConfig no_engine negative_retries (js "name: test
version: 1.0.0
settings:
  retries: -1")) [] ds.
Proof.
  apply (validateText_mapping parse_as_mapping no_engine); reflexivity.
Defined.

(** X17 on the scalar [!!binary aGk=], read as a [Uint8Array]. *)
Lemma validateText_object_root_witness :
  ∃ ds,
    returns (validateText parse_as_binary no_engine (js "!!binary aGk=")) [] ds
    ∧ returns (validateConfig no_engine (as_Record binary_hi)
                 (js "!!binary aGk=")) [] ds
    ∧ Forall (fun d => LSP.message d
                       ≠ js "ルート要素はオブジェクトである必要があります") ds.
Proof.
  apply (validateText_object_root parse_as_binary no_engine
           (js "!!binary aGk=") ClassUint8Array); reflexivity.
Defined.

(** X10 on the key [retries] and the two halves of the example
    document. *)
Lemma findLineForKey_app_witness :
  bare_word (js "retries")
  ∧ ∃ line_a line_b line_ab,
      findLineForKey no_engine (js "name: test
settings:") (js "retries") = Return line_a
      ∧ findLineForKey no_engine (js "  timeout: 30
  retries: 3") (js "retries") = Return line_b
      ∧ findLineForKey no_engine (js "name: test
settings:" ++ newline :: js "  timeout: 30
  retries: 3") (js "retries") = Return line_ab
      ∧ ((∃ l, l ∈ split newline (js "name: test
settings:") ∧ declares (js "retries") l) → line_ab = line_a)
      ∧ ((∀ l, l ∈ split newline (js "name: test
settings:") → ¬ declares (js "retries") l) →
         (∃ l, l ∈ split newline (js "  timeout: 30
  retries: 3") ∧ declares (js "retries") l) →
         line_ab = Z.of_nat (length (split newline (js "name: test
settings:"))) + line_b)
      ∧ ((∀ l, l ∈ split newline (js "name: test
settings:") → ¬ declares (js "retries") l) →
         (∀ l, l ∈ split newline (js "  timeout: 30
  retries: 3") → ¬ declares (js "retries") l) →
         line_ab = 0).
Proof.
  assert (H : bare_word (js "retries")).
  { apply bare_word_forallb. reflexivity. }
  exact (conj H (findLineForKey_app no_engine (js "retries") _ _ H)).
Defined.

(** X12 on the example document and the key [timeout]. *)
Lemma onHover_at_found_line_witness :
  ∃ line,
    findLineForKey no_engine example_document (js "timeout") = Return line
    ∧ onHover example_documents
        {| uri := js "file:///sample/valid.myconfig";
           position := {| LSP.line := line; LSP.character := 4 |} |}
      = Some (hover_text (js "timeout") (js "number") false
                (js "タイムアウト時間（秒）を指定します。")).
Proof.
  apply (onHover_at_found_line no_engine example_documents
           (js "file:///sample/valid.myconfig") example_document
           (js "timeout") timeout_doc 4).
  - vm_compute. reflexivity.
  - vm_compute. reflexivity.
  - exists (js "  timeout: 30"). split.
    + change (split newline example_document)
        with [js "name: test"; js "settings:"; js "  timeout: 30";
              js "  retries: 3"].
      do 2 apply list_elem_of_further. apply list_elem_of_here.
    + apply regex_test_key. vm_compute. reflexivity.
Defined.

(** X15 on the completion of [timeout], offered on the indented third
    line of the example document. *)
Lemma completions_documented_witness :
  ∃ doc first rest,
    assoc (js "timeout") FIELD_DOCS = Some doc
    ∧ js "タイムアウト時間（秒）を指定します。" = FieldDoc.description doc
    ∧ split newline (js "timeout: ") = first :: rest
    ∧ declares (js "timeout") first
    ∧ match_key first = Some (js "timeout").
Proof.
  apply (completions_documented example_documents
           {| uri := js "file:///sample/valid.myconfig";
              position := {| LSP.line := 2; LSP.character := 2 |} |}
           {| CompletionItem.label := js "timeout";
              CompletionItem.kind := CompletionItemKind.Property;
              CompletionItem.detail := js "(number) タイムアウト時間";
              CompletionItem.documentation := js "タイムアウト時間（秒）を指定します。";
              CompletionItem.insertText := js "timeout: " |}).
  assert (H : onCompletion example_documents
                {| uri := js "file:///sample/valid.myconfig";
                   position := {| LSP.line := 2; LSP.character := 2 |} |}
              = nested_completions) by (vm_compute; reflexivity).
  rewrite H. apply list_elem_of_here.
Defined.
